(** * Shipment tracking: the notification worker and the API's request checks

    A shallow embedding of [backend/notification_service.py] (the polling
    worker: [check_new_milestones], [check_exceptions], [send_daily_summary]
    and the helpers they call) and of the request checks of the mutating
    handlers of [backend/app.py].

    Conventions of the embedding.
    - A table of the relational store is the list of its rows; a SQL
      [WHERE] is a [filter], [COUNT] a [length], [JOIN .. ON] the pairs of
      rows that agree on the key, [ORDER BY .. DESC] a sort, [LIMIT] a
      [take].
    - A timestamp is a number of seconds ([Z]); [NOW()] is an argument of
      each job, and [INTERVAL '15 minutes'] is 900 seconds.
    - Columns the worker tests for [None] ([container_number],
      [vessel_name], [location], [notes], [description], [milestone_name],
      [current_milestone]) are [option]s; the others are read as NOT NULL.
    - The store is available: [cursor.execute] and [commit] do not raise.
    - The mail relay is an oracle [smtp] that decides, from the history so
      far and the message, whether [send_email] returns [True] or [False].
    - Text is ASCII: a Python [str] is a [string]. *)

From Stdlib Require Import ZArith String Ascii List Lia.
From stdpp Require Import base decidable option list sorting strings gmap.

Local Open Scope string_scope.
Local Open Scope list_scope.
Local Open Scope Z_scope.

(** ** Python strings *)

Module Py.

(** [c.isupper()], [c.islower()] on an ASCII character. *)
Definition is_upper (c : ascii) : bool :=
  let n := nat_of_ascii c in (65 <=? n)%nat && (n <=? 90)%nat.
Definition is_lower (c : ascii) : bool :=
  let n := nat_of_ascii c in (97 <=? n)%nat && (n <=? 122)%nat.
Definition is_cased (c : ascii) : bool := is_upper c || is_lower c.

Definition to_upper (c : ascii) : ascii :=
  if is_lower c then ascii_of_nat (nat_of_ascii c - 32) else c.
Definition to_lower (c : ascii) : ascii :=
  if is_upper c then ascii_of_nat (nat_of_ascii c + 32) else c.

(** [s.replace(old, new)] for one-character [old] and [new]. *)
Fixpoint replace (old new : ascii) (s : string) : string :=
  match s with
  | EmptyString => EmptyString
  | String c rest =>
      String (if Ascii.eqb c old then new else c) (replace old new rest)
  end.

(** [s.title()] on ASCII text: a cased character that follows an uncased
    one (or starts the string) is upper-cased, a cased character that
    follows a cased one is lower-cased, uncased characters are kept.
    [prev] is CPython's [previous_is_cased]. On a string with a byte
    above 127 the function is not [str.title]; the properties that read
    its result assume ASCII text. *)
Fixpoint title_from (prev : bool) (s : string) : string :=
  match s with
  | EmptyString => EmptyString
  | String c rest =>
      String (if prev then to_lower c else to_upper c)
             (title_from (is_cased c) rest)
  end.
Definition title (s : string) : string := title_from false s.

(** [s.split(sep)] for a one-character separator: the empty string splits
    into one empty field. *)
Fixpoint split (sep : ascii) (s : string) : list string :=
  match s with
  | EmptyString => [EmptyString]
  | String c rest =>
      if Ascii.eqb c sep then EmptyString :: split sep rest
      else match split sep rest with
           | field :: fields => String c field :: fields
           | [] => [String c EmptyString]
           end
  end.

(** Truth value of a [str]: the empty string is false. *)
Definition truthy (s : string) : bool :=
  match s with EmptyString => false | String _ _ => true end.

(** Truth value of an optional [str]: [None] and the empty string are false. *)
Definition truthy_opt (o : option string) : bool :=
  match o with None => false | Some s => truthy s end.

(** [o or default] on an optional [str]. *)
Definition or_default (o : option string) (default : string) : string :=
  match o with
  | Some s => if truthy s then s else default
  | None => default
  end.

(** [os.getenv(key, default)]. *)
Definition getenv (environ : gmap string string) (key default : string) : string :=
  match environ !! key with Some v => v | None => default end.

End Py.

(** ** The store *)

Record Shipment := {
  shipment_id : Z;
  booking_number : string;
  container_number : option string;
  vessel_name : option string;
  current_milestone : option string;
  current_status : string;
  updated_at : Z
}.

Record Milestone := {
  milestone_id : Z;
  m_shipment_id : Z;
  milestone_name : option string;
  milestone_status : string;
  actual_date : Z;
  location : option string;
  notes : option string;
  notification_sent : bool
}.

Record Exception := {
  exception_id : Z;
  e_shipment_id : Z;
  exception_type : string;
  severity : string;
  title : string;
  description : option string;
  status : string;
  created_at : Z
}.

Record Document := {
  document_id : Z;
  d_shipment_id : Z;
  d_created_at : Z
}.

Record DB := {
  shipments : list Shipment;
  milestones : list Milestone;
  exceptions : list Exception;
  documents : list Document
}.

(** ** Emails and the worker's observable history *)

(** A value interpolated into a subject or an HTML template. *)
Inductive frag :=
  | Lit (s : string)                (* a [str], as it is *)
  | Int (n : Z)                     (* an [int] *)
  | Strftime (fmt : string) (t : Z) (* [t.strftime(fmt)] of a stored timestamp *)
  | NowStrftime (fmt : string)      (* [datetime.now().strftime(fmt)] *)
  | NowYear.                        (* [datetime.now().year] *)

(** The arguments of [send_email]. [html] lists the values interpolated
    into the template, in the order of the template; the fixed markup
    between them is left out. *)
Record Email := {
  recipients : list string;
  subject : list frag;
  html : list frag
}.

(** What a message is about (bookkeeping of the embedding, not data of the
    program). *)
Inductive topic :=
  | AboutMilestone (mid : Z)
  | AboutException (eid : Z)
  | AboutSummary.

Inductive event :=
  | EmailAttempt (about : topic) (e : Email) (delivered : bool)
      (* [send_email] was called with [e] and returned [delivered] *)
  | MarkNotified (mid : Z).
      (* [UPDATE milestones SET notification_sent = TRUE WHERE
         milestone_id = mid], committed *)

Record World := {
  db : DB;
  log : list event
}.

(** ** A state monad over [World] *)

Definition M (A : Type) : Type := World -> A * World.

Definition ret {A} (a : A) : M A := fun w => (a, w).
Definition bind {A B} (m : M A) (k : A -> M B) : M B :=
  fun w => let (a, w') := m w in k a w'.

#[global] Instance M_ret : MRet M := @ret.
#[global] Instance M_bind : MBind M := fun A B k m => bind m k.

(** [for x in xs: body(x)]. *)
Fixpoint for_each {A} (xs : list A) (body : A -> M unit) : M unit :=
  match xs with
  | [] => ret tt
  | x :: rest => body x;; for_each rest body
  end.

(** State-changing primitives. *)
Definition emit (ev : event) : M unit :=
  fun w => (tt, {| db := db w; log := log w ++ [ev] |}).
Definition get_db : M DB := fun w => (db w, w).
Definition put_db (d : DB) : M unit :=
  fun w => (tt, {| db := d; log := log w |}).
Definition get_log : M (list event) := fun w => (log w, w).

(** ** The notification service *)

(** [INTERVAL '15 minutes'], in seconds. *)
Definition interval_15_minutes : Z := 15 * 60.

(** [DATE(t)]: the day a timestamp falls on. *)
Definition DATE (t : Z) : Z := t / 86400.

(** The state of a [NotificationService] object that the jobs read. *)
Record NotificationService := {
  vhc_recipients : list string
}.

(** The recipients that [NotificationService.__init__] computes from
    [VHC_EMAILS] (its last statement). The statements before it read the
    store and relay settings; one of them, [int(os.getenv('SMTP_PORT',
    '587'))], raises when [SMTP_PORT] is no numeral, and then there is no
    service object: see [port_readable]. *)
Definition init (environ : gmap string string) : NotificationService :=
  {| vhc_recipients := Py.split "," (Py.getenv environ "VHC_EMAILS" "vhc-team@example.com") |}.

(** [format_milestone_name]. *)
Definition format_milestone_name (name : option string) : string :=
  match name with
  | None => "N/A"
  | Some s => if Py.truthy s then Py.title (Py.replace "_" " " s) else "N/A"
  end.

(** [rows JOIN shipments s ON row.shipment_id = s.shipment_id]. *)
Definition join_shipments {A} (sid : A -> Z) (rows : list A) (ships : list Shipment)
  : list (A * Shipment) :=
  r ← rows; s ← filter (fun s => sid r = shipment_id s) ships; [(r, s)].

(** [ORDER BY m.actual_date DESC]: the row with the later date comes first. *)
Definition newest_first (r1 r2 : Milestone * Shipment) : Prop :=
  actual_date r2.1 <= actual_date r1.1.

#[global] Instance newest_first_dec r1 r2 : Decision (newest_first r1 r2).
Proof. unfold newest_first. apply _. Defined.

(** The [WHERE] clause of the milestone poll. *)
Definition unnotified_recent (now : Z) (r : Milestone * Shipment) : Prop :=
  notification_sent r.1 = false
  /\ milestone_status r.1 = "COMPLETED"
  /\ now - interval_15_minutes < actual_date r.1.

#[global] Instance unnotified_recent_dec now r : Decision (unnotified_recent now r).
Proof. unfold unnotified_recent. apply _. Defined.

(** The query of [check_new_milestones]; a result row is the milestone
    with the shipment it is joined to. *)
Definition poll_new_milestones (now : Z) (d : DB) : list (Milestone * Shipment) :=
  merge_sort newest_first
    (filter (unnotified_recent now) (join_shipments m_shipment_id (milestones d) (shipments d))).

(** A milestone row with its flag set. *)
Definition notified (m : Milestone) : Milestone :=
  {| milestone_id := milestone_id m; m_shipment_id := m_shipment_id m;
     milestone_name := milestone_name m; milestone_status := milestone_status m;
     actual_date := actual_date m; location := location m; notes := notes m;
     notification_sent := true |}.

(** [UPDATE milestones SET notification_sent = TRUE WHERE milestone_id = mid]. *)
Definition set_notified (mid : Z) (m : Milestone) : Milestone :=
  if decide (milestone_id m = mid) then notified m else m.

Definition update_notification_sent (mid : Z) (d : DB) : DB :=
  {| shipments := shipments d;
     milestones := map (set_notified mid) (milestones d);
     exceptions := exceptions d;
     documents := documents d |}.

(** The [WHERE] clause of the exception poll. *)
Definition open_recent (now : Z) (r : Exception * Shipment) : Prop :=
  now - interval_15_minutes < created_at r.1 /\ status r.1 = "OPEN".

#[global] Instance open_recent_dec now r : Decision (open_recent now r).
Proof. unfold open_recent. apply _. Defined.

(** The query of [check_exceptions]. *)
Definition poll_exceptions (now : Z) (d : DB) : list (Exception * Shipment) :=
  filter (open_recent now) (join_shipments e_shipment_id (exceptions d) (shipments d)).

(** The queries of [send_daily_summary]. *)
Definition active (s : Shipment) : Prop := current_status s <> "COMPLETED".

Definition count_active (d : DB) : Z :=
  Z.of_nat (length (filter active (shipments d))).
Definition count_milestones_today (now : Z) (d : DB) : Z :=
  Z.of_nat (length (filter (fun m => DATE (actual_date m) = DATE now) (milestones d))).
Definition count_open_exceptions (d : DB) : Z :=
  Z.of_nat (length (filter (fun e => status e <> "RESOLVED") (exceptions d))).
Definition count_docs_today (now : Z) (d : DB) : Z :=
  Z.of_nat (length (filter (fun x => DATE (d_created_at x) = DATE now) (documents d))).

(** [ORDER BY updated_at DESC]. *)
Definition latest_update_first (s1 s2 : Shipment) : Prop :=
  updated_at s2 <= updated_at s1.

#[global] Instance latest_update_first_dec s1 s2 : Decision (latest_update_first s1 s2).
Proof. unfold latest_update_first. apply _. Defined.

Definition recent_shipments (d : DB) : list Shipment :=
  take 10 (merge_sort latest_update_first (filter active (shipments d))).

(** The [stats] dictionary of [send_daily_summary]. *)
Record Stats := {
  stat_active : Z;
  stat_milestones_today : Z;
  stat_open_exceptions : Z;
  stat_docs_today : Z
}.

(** The optional [Location] and [Notes] blocks of the milestone template. *)
Definition optional_block (o : option string) : list frag :=
  match o with
  | Some s => if Py.truthy s then [Lit s] else []
  | None => []
  end.

Section Worker.

(** The mail relay, the process environment and the service object. *)
Variable smtp : list event -> Email -> bool.
Variable environ : gmap string string.
Variable self : NotificationService.

(** [send_email]: every failure is caught and turned into [False]. *)
Definition send_email (about : topic) (to : list string) (subj body : list frag) : M bool :=
  let e := {| recipients := to; subject := subj; html := body |} in
  history ← get_log;
  let delivered := smtp history e in
  emit (EmailAttempt about e delivered);;
  mret delivered.

(** The message of [send_milestone_notification]. *)
Definition milestone_subject (row : Milestone * Shipment) : list frag :=
  [Lit "Milestone Update: "; Lit (format_milestone_name (milestone_name row.1));
   Lit " - "; Lit (booking_number row.2)].

Definition milestone_html (row : Milestone * Shipment) : list frag :=
  [Lit (format_milestone_name (milestone_name row.1));
   Lit (booking_number row.2);
   Lit (Py.or_default (container_number row.2) "Pending");
   Lit (Py.or_default (vessel_name row.2) "N/A");
   Strftime "%Y-%m-%d %H:%M UTC" (actual_date row.1)]
  ++ optional_block (location row.1)
  ++ optional_block (notes row.1)
  ++ [NowYear].

Definition send_milestone_notification (row : Milestone * Shipment) : M unit :=
  send_email (AboutMilestone (milestone_id row.1)) (vhc_recipients self)
             (milestone_subject row) (milestone_html row);;
  mret tt.

(** The body of the loop of [check_new_milestones]. *)
Definition notify_and_mark (row : Milestone * Shipment) : M unit :=
  send_milestone_notification row;;
  d ← get_db;
  put_db (update_notification_sent (milestone_id row.1) d);;
  emit (MarkNotified (milestone_id row.1)).

Definition check_new_milestones (now : Z) : M unit :=
  d ← get_db;
  let new_milestones := poll_new_milestones now d in
  for_each new_milestones notify_and_mark.

(** The recipients of [send_exception_alert]. *)
Definition escalation_contacts : list string :=
  List.filter Py.truthy (Py.split "," (Py.getenv environ "ESCALATION_EMAILS" EmptyString)).

Definition alert_recipients (sev : string) : list string :=
  if bool_decide (sev = "HIGH" \/ sev = "CRITICAL")
  then vhc_recipients self ++ escalation_contacts
  else vhc_recipients self.

Definition alert_subject (row : Exception * Shipment) : list frag :=
  [Lit "🚨 Exception Alert ["; Lit (severity row.1); Lit "]: "; Lit (title row.1);
   Lit " - "; Lit (booking_number row.2)].

Definition severity_color (sev : string) : string :=
  if decide (sev = "LOW") then "#3b82f6"
  else if decide (sev = "MEDIUM") then "#f59e0b"
  else if decide (sev = "HIGH") then "#ef4444"
  else if decide (sev = "CRITICAL") then "#dc2626"
  else "#ef4444".

Definition alert_html (row : Exception * Shipment) : list frag :=
  [Lit (severity_color (severity row.1));
   Lit (severity row.1);
   Lit (title row.1);
   Lit (Py.or_default (description row.1) "No additional details provided");
   Lit (exception_type row.1);
   Lit (booking_number row.2);
   Lit (Py.or_default (container_number row.2) "Pending");
   Lit (Py.or_default (vessel_name row.2) "N/A");
   Strftime "%Y-%m-%d %H:%M UTC" (created_at row.1)].

Definition alert_email (row : Exception * Shipment) : Email :=
  {| recipients := alert_recipients (severity row.1);
     subject := alert_subject row;
     html := alert_html row |}.

Definition send_exception_alert (row : Exception * Shipment) : M unit :=
  send_email (AboutException (exception_id row.1))
             (alert_recipients (severity row.1)) (alert_subject row) (alert_html row);;
  mret tt.

Definition check_exceptions (now : Z) : M unit :=
  d ← get_db;
  let exceptions := poll_exceptions now d in
  for_each exceptions send_exception_alert.

(** [send_daily_summary_email]. *)
Definition shipments_html (rows : list Shipment) : list frag :=
  s ← rows;
  [Lit (booking_number s);
   Lit (Py.or_default (container_number s) "Pending");
   Lit (format_milestone_name (current_milestone s))].

Definition summary_subject : list frag :=
  [Lit "Daily Shipment Summary - "; NowStrftime "%Y-%m-%d"].

Definition summary_html (stats : Stats) (rows : list Shipment) : list frag :=
  [NowStrftime "%B %d, %Y";
   Int (stat_active stats);
   Int (stat_milestones_today stats);
   Int (stat_docs_today stats);
   Int (stat_open_exceptions stats)]
  ++ shipments_html rows.

Definition send_daily_summary_email (stats : Stats) (rows : list Shipment) : M unit :=
  send_email AboutSummary (vhc_recipients self)
             summary_subject (summary_html stats rows);;
  mret tt.

Definition send_daily_summary (now : Z) : M unit :=
  d ← get_db;
  let stats :=
    {| stat_active := count_active d;
       stat_milestones_today := count_milestones_today now d;
       stat_open_exceptions := count_open_exceptions d;
       stat_docs_today := count_docs_today now d |} in
  send_daily_summary_email stats (recent_shipments d).

(** *** The life of the service

    [run] executes [check_new_milestones] and [check_exceptions] once,
    then lets the scheduler fire the three jobs for ever. What the
    store sees is a sequence of job executions, each at its own time,
    interleaved with the writes of the other clients of the store (the
    API). A finite prefix of that sequence is a list of [op]s. *)
Inductive op :=
  | CheckNewMilestones (now : Z)
  | CheckExceptions (now : Z)
  | SendDailySummary (now : Z)
  | StoreWrite (f : DB -> DB).

Definition exec_op (o : op) (w : World) : World :=
  match o with
  | CheckNewMilestones now => (check_new_milestones now w).2
  | CheckExceptions now => (check_exceptions now w).2
  | SendDailySummary now => (send_daily_summary now w).2
  | StoreWrite f => {| db := f (db w); log := log w |}
  end.

Definition exec (ops : list op) (w : World) : World :=
  foldl (fun w o => exec_op o w) w ops.

(** The operations of [run]: the two immediate checks at [t0] and [t1],
    then whatever [schedule.run_pending] fires and the other clients
    write. *)
Definition run (t0 t1 : Z) (later : list op) : list op :=
  CheckNewMilestones t0 :: CheckExceptions t1 :: later.

(** [P o w] holds for each operation [o] of [ops], in the world [w] it
    starts from, when [ops] runs from [w0]. *)
Fixpoint along (P : op -> World -> Prop) (ops : list op) (w0 : World) : Prop :=
  match ops with
  | [] => True
  | o :: rest => P o w0 /\ along P rest (exec_op o w0)
  end.

End Worker.

Arguments CheckNewMilestones now%_Z.
Arguments CheckExceptions now%_Z.
Arguments SendDailySummary now%_Z.

(** The messages attempted in a history, in order. *)
Definition attempts (l : list event) : list Email :=
  ev ← l; match ev with EmailAttempt _ e _ => [e] | MarkNotified _ => [] end.

(** Whether an event is about the milestone [mid]. *)
Definition concerns_milestone (mid : Z) (ev : event) : Prop :=
  match ev with
  | EmailAttempt (AboutMilestone i) _ _ => i = mid
  | EmailAttempt _ _ _ => False
  | MarkNotified i => i = mid
  end.

(** The rows of [milestones] with a given id. *)
Definition milestones_with_id (mid : Z) (d : DB) : list Milestone :=
  filter (fun m => milestone_id m = mid) (milestones d).

(** When [o] is a run of [check_new_milestones], every row of the table
    with the id [mid] is dated more than 15 minutes before the run. *)
Definition missed_by (mid : Z) (o : op) (w : World) : Prop :=
  match o with
  | CheckNewMilestones now =>
      Forall (fun m => milestone_id m = mid -> actual_date m + 15 * 60 < now)
             (milestones (db w))
  | _ => True
  end.

(** When [o] is a job of the worker, it leaves the rows with the id
    [mid] as they are. *)
Definition kept_by (smtp : list event -> Email -> bool) (environ : gmap string string)
    (self : NotificationService) (mid : Z) (o : op) (w : World) : Prop :=
  match o with
  | StoreWrite _ => True
  | _ => milestones_with_id mid (db (exec_op smtp environ self o w))
         = milestones_with_id mid (db w)
  end.

(** The message [send_milestone_notification] builds for a row. *)
Definition milestone_email (self : NotificationService) (row : Milestone * Shipment) : Email :=
  {| recipients := vhc_recipients self;
     subject := milestone_subject row;
     html := milestone_html row |}.

(** What one turn of the loop of [check_new_milestones] leaves in the
    history: the attempt, then the update. *)
Definition turn_of (self : NotificationService) (row : Milestone * Shipment)
    (delivered : bool) : list event :=
  [EmailAttempt (AboutMilestone (milestone_id row.1)) (milestone_email self row) delivered;
   MarkNotified (milestone_id row.1)].

(** The spec's reading of the polling window: the date lies in the 15
    minutes that end at [now]. *)
Definition within_last_15_minutes (now t : Z) : Prop :=
  now - interval_15_minutes < t /\ t <= now.

(** Title case, said with the alphabet and not with the functions of
    [Py]: the small and the capital letters, in order. *)
Definition small_letters : string := "abcdefghijklmnopqrstuvwxyz".
Definition capital_letters : string := "ABCDEFGHIJKLMNOPQRSTUVWXYZ".

(** The position of the first [c] in [s]. *)
Fixpoint index_of (c : ascii) (s : string) : option nat :=
  match s with
  | EmptyString => None
  | String a rest =>
      if Ascii.eqb a c then Some O
      else match index_of c rest with Some i => Some (S i) | None => None end
  end.

Definition is_letter (c : ascii) : bool :=
  match index_of c small_letters, index_of c capital_letters with
  | None, None => false
  | _, _ => true
  end.

(** The capital of a small letter and the small of a capital letter;
    any other character is its own. *)
Definition capital (c : ascii) : ascii :=
  match index_of c small_letters with
  | Some i => match String.get i capital_letters with Some u => u | None => c end
  | None => c
  end.

Definition small (c : ascii) : ascii :=
  match index_of c capital_letters with
  | Some i => match String.get i small_letters with Some l => l | None => c end
  | None => c
  end.

(** The character at position [n] starts a word when it is the first one
    or the one before it is no letter. *)
Definition starts_word (s : string) (n : nat) : bool :=
  match n with
  | O => true
  | S k => match String.get k s with
           | Some p => negb (is_letter p)
           | None => true
           end
  end.

(** The character that the formatted name shows in place of [c] at
    position [n] of [name]: a space for an underscore, the capital of a
    letter that starts a word, the small of any other letter. *)
Definition shown_char (name : string) (n : nat) (c : ascii) : ascii :=
  if Ascii.eqb c "_" then " "%char
  else if starts_word name n then capital c else small c.

(** The text is ASCII: every byte is below 128. *)
Fixpoint ascii_only (s : string) : Prop :=
  match s with
  | EmptyString => True
  | String c rest => (nat_of_ascii c < 128)%nat /\ ascii_only rest
  end.

(** The text is a numeral of one to five decimal digits, which [int]
    reads. *)
Fixpoint digits_only (s : string) : Prop :=
  match s with
  | EmptyString => True
  | String c rest => (48 <= nat_of_ascii c <= 57)%nat /\ digits_only rest
  end.

Definition decimal (s : string) : Prop :=
  s <> EmptyString /\ (String.length s <= 5)%nat /\ digits_only s.

(** [SMTP_PORT] is unset (the default 587 is read) or a decimal numeral:
    [int(os.getenv('SMTP_PORT', '587'))] returns and [__init__] goes
    on to the recipients. *)
Definition port_readable (environ : gmap string string) : Prop :=
  match environ !! "SMTP_PORT" with
  | None => True
  | Some port => decimal port
  end.

(** The cell of the summary table for a container number: the number, or
    Pending when there is none. *)
Definition container_cell (s : Shipment) : string :=
  match container_number s with
  | Some (String c rest) => String c rest
  | _ => "Pending"
  end.

(** The milestone ids of a list of polled rows. *)
Definition ids_of (rows : list (Milestone * Shipment)) : list Z :=
  map (fun row => milestone_id row.1) rows.

(** The flag updates of a list of rows, in order. *)
Definition mark_all (rows : list (Milestone * Shipment)) (d : DB) : DB :=
  foldl (fun d row => update_notification_sent (milestone_id row.1) d) d rows.

(** ** The API's mutating handlers, up to their first access to the store

    Each handler of [app.py] is embedded from its first line to the point
    where it first reaches the store: it answers with a status and an
    error message ([Respond]), dies of an exception that nothing catches
    ([Raised]), or goes on with the values it has read ([Proceed]); what
    follows (queries, inserts, the notification email) is not embedded.
    The body of a request is a JSON object. *)

Module Api.

#[local] Unset Elimination Schemes.
Inductive json :=
  | JNull
  | JBool (b : bool)
  | JNum (n : Z)
  | JStr (s : string)
  | JArr (items : list json)
  | JObj (members : list (string * json)).
#[local] Set Elimination Schemes.

(** Truth value of a decoded JSON value ([not v] is its negation). *)
Definition truthy (v : json) : bool :=
  match v with
  | JNull => false
  | JBool b => b
  | JNum n => negb (n =? 0)
  | JStr s => Py.truthy s
  | JArr items => match items with [] => false | _ => true end
  | JObj members => match members with [] => false | _ => true end
  end.

Inductive exn :=
  | KeyError (key : string).

Inductive outcome (A : Type) :=
  | Respond (status : Z) (error : string)
  | Raised (e : exn)
  | Proceed (a : A).
Arguments Respond {A} status error.
Arguments Raised {A} e.
Arguments Proceed {A} a.

(** The status the client sees: Flask answers 500 for an exception that
    the handler does not catch. [None]: decided by the part that is not
    embedded. *)
Definition http_status {A} (o : outcome A) : option Z :=
  match o with
  | Respond status _ => Some status
  | Raised _ => Some 500
  | Proceed _ => None
  end.

(** [data.get(key)], [data.get(key, default)], [data[key]] and
    [all(field in data for field in required_fields)] on a [dict]. *)
Definition get (data : gmap string json) (key : string) : json :=
  match data !! key with Some v => v | None => JNull end.

Definition get_default (data : gmap string json) (key : string) (default : json) : json :=
  match data !! key with Some v => v | None => default end.

Definition getitem (data : gmap string json) (key : string) : exn + json :=
  match data !! key with Some v => inr v | None => inl (KeyError key) end.

Definition has_all (data : gmap string json) (required_fields : list string) : bool :=
  forallb (fun field => bool_decide (is_Some (data !! field))) required_fields.

(** [role_required(allowed_roles)] around a handler [fn]. *)
Definition role_required {A} (allowed_roles : list string) (user_role : option string)
    (fn : outcome A) : outcome A :=
  match user_role with
  | Some r => if bool_decide (r ∈ allowed_roles) then fn
              else Respond 403 "Unauthorized access"
  | None => Respond 403 "Unauthorized access"
  end.

(** [login]. *)
Definition login (data : gmap string json) : outcome (json * json) :=
  let email := get data "email" in
  let password := get data "password" in
  if negb (truthy email) || negb (truthy password)
  then Respond 400 "Email and password required"
  else Proceed (email, password).

(** [register_user]. *)
Definition register_user (data : gmap string json) : outcome (gmap string json) :=
  let required_fields := ["email"; "password"; "full_name"; "role"] in
  if negb (has_all data required_fields)
  then Respond 400 "Missing required fields"
  else Proceed data.

(** [create_shipment]. *)
Definition create_shipment (data : gmap string json) : outcome (gmap string json) :=
  let required_fields := ["booking_number"] in
  if negb (has_all data required_fields)
  then Respond 400 "Missing required fields"
  else Proceed data.

(** [update_milestone]. *)
Definition update_milestone (shipment_id : Z) (data : gmap string json)
  : outcome (Z * json * json * json) :=
  let milestone_name := get data "milestone_name" in
  if negb (truthy milestone_name)
  then Respond 400 "milestone_name required"
  else Proceed (shipment_id, milestone_name, get data "location", get data "notes").

(** [ALLOWED_EXTENSIONS] and [allowed_file]. *)
Definition ALLOWED_EXTENSIONS : list string :=
  ["pdf"; "xlsx"; "xls"; "doc"; "docx"; "jpg"; "jpeg"; "png"].

(** The text after the last ['.'] of [s], lower-cased, if [s] has a ['.']:
    [s.rsplit('.', 1)[1].lower()] guarded by ['.' in s]. *)
Fixpoint extension (s : string) : option string :=
  match s with
  | EmptyString => None
  | String c rest =>
      match extension rest with
      | Some ext => Some ext
      | None => if Ascii.eqb c "." then Some rest else None
      end
  end.

Fixpoint lower (s : string) : string :=
  match s with
  | EmptyString => EmptyString
  | String c rest => String (Py.to_lower c) (lower rest)
  end.

Definition allowed_file (filename : string) : bool :=
  match extension filename with
  | Some ext => bool_decide (lower ext ∈ ALLOWED_EXTENSIONS)
  | None => false
  end.

(** [upload_document]: [files] maps a field of [request.files] to the
    name of the uploaded file, [form] is [request.form]. *)
Definition upload_document (shipment_id : Z) (files form : gmap string string)
  : outcome (Z * string * string) :=
  match files !! "file" with
  | None => Respond 400 "No file provided"
  | Some filename =>
      match form !! "document_type" with
      | None => Respond 400 "document_type required"
      | Some document_type =>
          if negb (Py.truthy document_type) then Respond 400 "document_type required"
          else if negb (Py.truthy filename) then Respond 400 "No file selected"
          else if allowed_file filename
               then Proceed (shipment_id, document_type, filename)
               else Respond 400 "Invalid file type"
      end
  end.

(** [create_invoice]. *)
Definition create_invoice (data : gmap string json) : outcome (gmap string json) :=
  let required_fields := ["shipment_id"; "invoice_number"; "total_amount"] in
  if negb (has_all data required_fields)
  then Respond 400 "Missing required fields"
  else Proceed data.

(** [create_exception]: the arguments of the [INSERT] are read from the
    body with no check before them; [data['title']] raises when the
    title is missing. *)
Definition create_exception (shipment_id : Z) (data : gmap string json)
  : outcome (Z * json * json * json * json) :=
  let exception_type := get data "exception_type" in
  let severity := get_default data "severity" (JStr "MEDIUM") in
  match getitem data "title" with
  | inl e => Raised e
  | inr title =>
      Proceed (shipment_id, exception_type, severity, title, get data "description")
  end.

(** The mutating routes with their role checks. *)
Definition register_user_route (role : option string) (data : gmap string json) :=
  role_required ["ADMIN"] role (register_user data).
Definition create_shipment_route (role : option string) (data : gmap string json) :=
  role_required ["SEAIR_ORIGIN"; "ADMIN"] role (create_shipment data).
Definition update_milestone_route (role : option string) (shipment_id : Z)
    (data : gmap string json) :=
  role_required ["SEAIR_ORIGIN"; "SEAIR_US"; "ADMIN"] role (update_milestone shipment_id data).
Definition create_invoice_route (role : option string) (data : gmap string json) :=
  role_required ["SEAIR_US"; "ADMIN"] role (create_invoice data).
Definition create_exception_route (role : option string) (shipment_id : Z)
    (data : gmap string json) :=
  role_required ["SEAIR_ORIGIN"; "SEAIR_US"; "ADMIN"] role (create_exception shipment_id data).

(** [get_shipments]: the filters and the parameters built from
    [request.args], and the [WHERE] clause put into the query text. *)
Definition like (v : string) : string := String.append "%" (String.append v "%").

Definition add_filter (value : option string) (clause : string) (param : string -> string)
    (acc : list string * list string) : list string * list string :=
  match value with
  | Some v => if Py.truthy v then (acc.1 ++ [clause], acc.2 ++ [param v]) else acc
  | None => acc
  end.

Definition shipment_filters (args : gmap string string) : list string * list string :=
  let acc := add_filter (args !! "booking_number") "booking_number ILIKE %s" like ([], []) in
  let acc := add_filter (args !! "status") "current_status = %s" (fun v => v) acc in
  add_filter (args !! "container_number") "container_number ILIKE %s" like acc.

Definition where_clause (filters : list string) : string :=
  match filters with
  | [] => EmptyString
  | _ => String.append "WHERE " (String.concat " AND " filters)
  end.

(** [get_dashboard_stats]. [GROUP BY current_status] gives one row per
    status that occurs, with the number of its shipments; the rows become
    a dictionary. *)
Definition count_status (st : string) (ships : list Shipment) : Z :=
  Z.of_nat (length (filter (fun s => current_status s = st) ships)).

Definition status_rows (ships : list Shipment) : list (string * Z) :=
  map (fun st => (st, count_status st ships)) (remove_dups (map current_status ships)).

Record DashboardStats := {
  active_shipments : Z;
  by_status : gmap string Z;
  pending_exceptions : Z;
  recent_milestones : Z
}.

Definition get_dashboard_stats (now : Z) (d : DB) : DashboardStats :=
  {| active_shipments :=
       Z.of_nat (length (filter (fun s => current_status s <> "COMPLETED") (shipments d)));
     by_status := list_to_map (status_rows (shipments d));
     pending_exceptions :=
       Z.of_nat (length (filter (fun e => status e <> "RESOLVED") (exceptions d)));
     recent_milestones :=
       Z.of_nat (length (filter (fun m => now - 7 * 86400 < actual_date m) (milestones d))) |}.

End Api.

(** ** Sample data *)

Module Scenario.

Definition booked : Shipment :=
  {| shipment_id := 1; booking_number := "BK1001"; container_number := None;
     vessel_name := None; current_milestone := Some "VESSEL_DEPARTED";
     current_status := "BOOKING_CREATED"; updated_at := 10000 |}.

(** Posted at 10000; polled at 10300 it is five minutes old. *)
Definition departed : Milestone :=
  {| milestone_id := 1; m_shipment_id := 1; milestone_name := Some "VESSEL_DEPARTED";
     milestone_status := "COMPLETED"; actual_date := 10000;
     location := None; notes := None; notification_sent := false |}.

(** Dated one hour after the poll at 10300. *)
Definition future_dated : Milestone :=
  {| milestone_id := 2; m_shipment_id := 1; milestone_name := Some "PORT_ARRIVAL";
     milestone_status := "COMPLETED"; actual_date := 13900;
     location := None; notes := None; notification_sent := false |}.

(** Dated more than 15 minutes before every poll from 10300 on. *)
Definition missed : Milestone :=
  {| milestone_id := 3; m_shipment_id := 1; milestone_name := Some "BOOKING_CONFIRMED";
     milestone_status := "COMPLETED"; actual_date := 9000;
     location := None; notes := None; notification_sent := false |}.

Definition congestion : Exception :=
  {| exception_id := 1; e_shipment_id := 1; exception_type := "DELAY";
     severity := "CRITICAL"; title := "Port congestion"; description := None;
     status := "OPEN"; created_at := 10200 |}.

Definition store (ms : list Milestone) : DB :=
  {| shipments := [booked]; milestones := ms; exceptions := [congestion]; documents := [] |}.

Definition world (ms : list Milestone) : World := {| db := store ms; log := [] |}.

(** A relay that refuses every message, and one that takes every message. *)
(** The API posts a milestone: a new row of the table. *)
Definition post (m : Milestone) (d : DB) : DB :=
  {| shipments := shipments d; milestones := milestones d ++ [m];
     exceptions := exceptions d; documents := documents d |}.

(** The day of the daily summary scenario: three shipments that are not
    completed and one that is, two milestones dated today and one dated
    yesterday, one open exception and one resolved, no document today. *)
Definition shipment (id : Z) (booking st : string) (updated : Z) : Shipment :=
  {| shipment_id := id; booking_number := booking; container_number := None;
     vessel_name := None; current_milestone := Some "VESSEL_DEPARTED";
     current_status := st; updated_at := updated |}.

Definition milestone (id day_second : Z) : Milestone :=
  {| milestone_id := id; m_shipment_id := 1; milestone_name := Some "VESSEL_DEPARTED";
     milestone_status := "COMPLETED"; actual_date := day_second;
     location := None; notes := None; notification_sent := true |}.

Definition resolved : Exception :=
  {| exception_id := 2; e_shipment_id := 1; exception_type := "DELAY";
     severity := "LOW"; title := "Late truck"; description := None;
     status := "RESOLVED"; created_at := 10 |}.

Definition today : Z := 20000 * 86400 + 8 * 3600.

Definition summary_day : DB :=
  {| shipments := [shipment 1 "BK1" "IN_TRANSIT" (today - 500);
                   shipment 2 "BK2" "COMPLETED" (today - 10);
                   shipment 3 "BK3" "BOOKING_CREATED" (today - 100);
                   shipment 4 "BK4" "IN_TRANSIT" (today - 300)];
     milestones := [milestone 1 (today - 3600); milestone 2 (today - 9 * 3600);
                    milestone 3 (today - 60)];
     exceptions := [congestion; resolved];
     documents := [{| document_id := 1; d_shipment_id := 1;
                      d_created_at := today - 86400 |}] |}.

Definition relay_down : list event -> Email -> bool := fun _ _ => false.
Definition relay_up : list event -> Email -> bool := fun _ _ => true.

Definition service : NotificationService := init ∅.

Definition escalating : gmap string string :=
  {[ "ESCALATION_EMAILS" := "ops-lead@example.com,,duty@example.com" ]}.

End Scenario.

(** ** Notions used by the further properties *)

(** The operation is a job of the worker (not a write by someone else). *)
Definition is_job (o : op) : Prop :=
  match o with StoreWrite _ => False | _ => True end.

(** The event is a call of [send_email] for the milestone [mid]. *)
Definition attempt_about (mid : Z) (ev : event) : Prop :=
  match ev with
  | EmailAttempt (AboutMilestone i) _ _ => i = mid
  | _ => False
  end.

#[global] Instance attempt_about_dec mid ev : Decision (attempt_about mid ev).
Proof. destruct ev as [[i|i|] e b|i]; cbn; apply _. Defined.

(** The number of calls of [send_email] for [mid] in a history. *)
Definition attempts_about (mid : Z) (l : list event) : nat :=
  length (filter (attempt_about mid) l).

(** The event is a call of [send_email] for the exception [eid]. *)
Definition alert_about (eid : Z) (ev : event) : Prop :=
  match ev with
  | EmailAttempt (AboutException i) _ _ => i = eid
  | _ => False
  end.

(** Every row of the milestone table with the id [mid] has its flag set. *)
Definition flagged (mid : Z) (d : DB) : Prop :=
  Forall (fun m => milestone_id m = mid -> notification_sent m = true) (milestones d).

(** What the updates of a run make of a row: the flag is set when the id
    of the row is among the polled ids. *)
Definition mark_if_polled (ids : list Z) (m : Milestone) : Milestone :=
  if bool_decide (milestone_id m ∈ ids) then notified m else m.

(** The string has no occurrence of the character. *)
Fixpoint lacks (c : ascii) (s : string) : Prop :=
  match s with
  | EmptyString => True
  | String a rest => a <> c /\ lacks c rest
  end.

(** More sample data: a second shipment, a milestone that is not
    completed, a resolved exception's shipment. *)
Module Scenario2.

Definition in_progress : Milestone :=
  {| milestone_id := 4; m_shipment_id := 1; milestone_name := Some "CUSTOMS_RELEASE";
     milestone_status := "PENDING"; actual_date := 10100;
     location := Some "Long Beach"; notes := None; notification_sent := false |}.

Definition jobs : list op :=
  [CheckExceptions 10310; CheckNewMilestones 10200; SendDailySummary 10400;
   CheckNewMilestones 10900].

End Scenario2.

(** * Properties *)

(** ** Running the monadic code *)

(** Unfold the monad's operations and the primitives on the state. *)
Ltac run_m :=
  cbv [mbind M_bind bind mret M_ret ret send_email get_db put_db get_log emit];
  cbn [fst snd db log].

Section Runs.

Variable smtp : list event -> Email -> bool.
Variable environ : gmap string string.
Variable self : NotificationService.

Lemma send_email_run about to subj body w :
  let e := {| recipients := to; subject := subj; html := body |} in
  send_email smtp about to subj body w =
    (smtp (log w) e,
     {| db := db w; log := log w ++ [EmailAttempt about e (smtp (log w) e)] |}).
Proof. reflexivity. Qed.

Lemma notify_and_mark_run row w :
  notify_and_mark smtp self row w =
    (tt, {| db := update_notification_sent (milestone_id row.1) (db w);
            log := log w ++ turn_of self row (smtp (log w) (milestone_email self row)) |}).
Proof.
  unfold notify_and_mark, send_milestone_notification, turn_of.
  run_m. rewrite <- app_assoc. reflexivity.
Qed.

Lemma for_each_cons {A} (x : A) xs body w :
  for_each (x :: xs) body w = for_each xs body (body x w).2.
Proof. cbn [for_each]. run_m. destruct (body x w). reflexivity. Qed.

(** The loop over the polled rows: the store gets every flag update, the
    history one turn per row. *)
Lemma milestone_loop rows w :
  exists turns,
    for_each rows (notify_and_mark smtp self) w =
      (tt, {| db := mark_all rows (db w); log := log w ++ concat turns |})
    /\ Forall2 (fun row turn => exists delivered, turn = turn_of self row delivered)
               rows turns.
Proof.
  revert w. induction rows as [|row rows IH]; intros w.
  - exists []. split; [|constructor].
    cbn. rewrite app_nil_r. destruct w; reflexivity.
  - rewrite for_each_cons, notify_and_mark_run. cbn [snd].
    destruct (IH {| db := update_notification_sent (milestone_id row.1) (db w);
                    log := log w ++ turn_of self row (smtp (log w) (milestone_email self row)) |})
      as (turns & Hrun & Hturns).
    exists (turn_of self row (smtp (log w) (milestone_email self row)) :: turns).
    split.
    + rewrite Hrun. cbn [db log concat mark_all foldl].
      rewrite <- app_assoc. reflexivity.
    + constructor; eauto.
Qed.

Lemma check_new_milestones_run now w :
  exists turns,
    check_new_milestones smtp self now w =
      (tt, {| db := mark_all (poll_new_milestones now (db w)) (db w);
              log := log w ++ concat turns |})
    /\ Forall2 (fun row turn => exists delivered, turn = turn_of self row delivered)
               (poll_new_milestones now (db w)) turns.
Proof.
  unfold check_new_milestones. run_m. apply milestone_loop.
Qed.

Lemma attempts_cons_email about e delivered l :
  attempts (EmailAttempt about e delivered :: l) = e :: attempts l.
Proof. reflexivity. Qed.

Lemma attempts_cons_mark mid l : attempts (MarkNotified mid :: l) = attempts l.
Proof. reflexivity. Qed.

Lemma attempts_app l1 l2 : attempts (l1 ++ l2) = attempts l1 ++ attempts l2.
Proof. unfold attempts. apply bind_app. Qed.

Lemma send_exception_alert_run row w :
  send_exception_alert smtp environ self row w =
    (tt, {| db := db w;
            log := log w ++ [EmailAttempt (AboutException (exception_id row.1))
                               (alert_email environ self row)
                               (smtp (log w) (alert_email environ self row))] |}).
Proof. reflexivity. Qed.

Lemma exception_loop rows w :
  db (for_each rows (send_exception_alert smtp environ self) w).2 = db w
  /\ exists new, log (for_each rows (send_exception_alert smtp environ self) w).2 = log w ++ new
     /\ attempts new = map (alert_email environ self) rows
     /\ Forall2 (fun row ev => exists delivered,
                   ev = EmailAttempt (AboutException (exception_id row.1))
                          (alert_email environ self row) delivered)
                rows new.
Proof.
  revert w. induction rows as [|row rows IH]; intros w.
  - cbn. split; [reflexivity|]. exists []. rewrite app_nil_r. repeat split. constructor.
  - rewrite for_each_cons, send_exception_alert_run. cbn [snd].
    destruct (IH {| db := db w;
                    log := log w ++ [EmailAttempt (AboutException (exception_id row.1))
                               (alert_email environ self row)
                               (smtp (log w) (alert_email environ self row))] |})
      as (Hdb & new & Hlog & Hatt & Hall).
    split; [exact Hdb|].
    eexists (_ :: new). rewrite Hlog. cbn [log].
    rewrite <- app_assoc. split; [reflexivity|]. split.
    + rewrite attempts_cons_email, Hatt. reflexivity.
    + constructor; eauto.
Qed.

End Runs.

(** ** The store under the flag updates *)

Lemma set_notified_id mid m : milestone_id (set_notified mid m) = milestone_id m.
Proof. unfold set_notified. case_decide; reflexivity. Qed.

Lemma set_notified_hit m : set_notified (milestone_id m) m = notified m.
Proof. unfold set_notified, notified. case_decide; [reflexivity|contradiction]. Qed.

Lemma set_notified_miss mid m : milestone_id m <> mid -> set_notified mid m = m.
Proof. unfold set_notified. case_decide; [contradiction|reflexivity]. Qed.

Lemma set_notified_flag mid m :
  notification_sent (set_notified mid m) = false ->
  milestone_id m <> mid /\ set_notified mid m = m.
Proof.
  unfold set_notified. case_decide; cbn; [discriminate|]. intros _. split; done.
Qed.

Lemma mark_all_cons row rows d :
  mark_all (row :: rows) d =
  mark_all rows (update_notification_sent (milestone_id row.1) d).
Proof. reflexivity. Qed.

Lemma mark_all_frame rows d :
  shipments (mark_all rows d) = shipments d
  /\ exceptions (mark_all rows d) = exceptions d
  /\ documents (mark_all rows d) = documents d.
Proof.
  revert d. induction rows as [|row rows IH]; intros d; [done|].
  rewrite mark_all_cons.
  destruct (IH (update_notification_sent (milestone_id row.1) d)) as (-> & -> & ->).
  done.
Qed.

(** After the updates, a row of the table is an old row, with its flag
    set if its id is one of the updated ids, untouched otherwise. *)
Lemma mark_all_milestones rows d m' :
  m' ∈ milestones (mark_all rows d) <->
  exists m, m ∈ milestones d
    /\ ((milestone_id m ∈ ids_of rows /\ m' = notified m)
        \/ (¬ milestone_id m ∈ ids_of rows /\ m' = m)).
Proof.
  revert d m'. induction rows as [|row rows IH]; intros d m'.
  - unfold ids_of. cbn. split.
    + intros Hm. exists m'. split; [done|]. right. split; [apply not_elem_of_nil|done].
    + intros (m & Hm & [[Hin _]|[_ ->]]); [by apply elem_of_nil in Hin|done].
  - rewrite mark_all_cons, IH. unfold ids_of. cbn [map]. fold (ids_of rows). cbn [milestones update_notification_sent]. split.
    + intros (m1 & Hm1 & Hcase). apply list_elem_of_fmap in Hm1 as (m & -> & Hm).
      exists m. split; [done|]. rewrite set_notified_id in Hcase.
      destruct (decide (milestone_id m = milestone_id row.1)) as [Heq|Hne].
      * left. split; [rewrite Heq; left|].
        rewrite <- Heq, set_notified_hit in Hcase.
        destruct Hcase as [[_ ->]|[_ ->]]; reflexivity.
      * rewrite set_notified_miss in Hcase by done.
        destruct Hcase as [[Hin ->]|[Hnin ->]]; [left|right]; split; try done.
        -- by right.
        -- rewrite not_elem_of_cons. done.
    + intros (m & Hm & Hcase). exists (set_notified (milestone_id row.1) m).
      split; [apply list_elem_of_fmap; eauto|]. rewrite set_notified_id.
      destruct (decide (milestone_id m = milestone_id row.1)) as [Heq|Hne].
      * rewrite <- Heq, set_notified_hit.
        destruct Hcase as [[_ ->]|[Hnin _]].
        -- destruct (decide (milestone_id m ∈ ids_of rows));
             [left|right]; done.
        -- exfalso. apply Hnin. rewrite Heq. left.
      * rewrite set_notified_miss by done.
        destruct Hcase as [[Hin ->]|[Hnin ->]]; [left|right]; split; try done.
        -- by apply elem_of_cons in Hin as [?|?].
        -- by apply not_elem_of_cons in Hnin as [_ ?].
Qed.

(** ** The polls *)

Lemma elem_of_join {A} (sid : A -> Z) rows ships r s :
  (r, s) ∈ join_shipments sid rows ships <->
  r ∈ rows /\ s ∈ ships /\ sid r = shipment_id s.
Proof.
  unfold join_shipments. rewrite list_elem_of_bind. split.
  - intros (r' & Hin & Hr'). apply list_elem_of_bind in Hin as (s' & Hin & Hs').
    apply list_elem_of_singleton in Hin. injection Hin as -> ->.
    apply list_elem_of_filter in Hs' as [? ?]. done.
  - intros (Hr & Hs & Heq). exists r. split; [|done].
    apply list_elem_of_bind. exists s. split; [apply list_elem_of_singleton; done|].
    apply list_elem_of_filter. done.
Qed.

Lemma poll_new_milestones_perm now d :
  poll_new_milestones now d ≡ₚ
  filter (unnotified_recent now) (join_shipments m_shipment_id (milestones d) (shipments d)).
Proof. apply merge_sort_Permutation. Qed.

Lemma elem_of_poll_new_milestones now d m s :
  (m, s) ∈ poll_new_milestones now d <->
  m ∈ milestones d /\ s ∈ shipments d /\ m_shipment_id m = shipment_id s
  /\ notification_sent m = false /\ milestone_status m = "COMPLETED"
  /\ now - interval_15_minutes < actual_date m.
Proof.
  rewrite poll_new_milestones_perm, list_elem_of_filter, elem_of_join.
  unfold unnotified_recent. cbn. tauto.
Qed.

Lemma elem_of_poll_exceptions now d e s :
  (e, s) ∈ poll_exceptions now d <->
  e ∈ exceptions d /\ s ∈ shipments d /\ e_shipment_id e = shipment_id s
  /\ now - interval_15_minutes < created_at e /\ status e = "OPEN".
Proof.
  unfold poll_exceptions. rewrite list_elem_of_filter, elem_of_join.
  unfold open_recent. cbn. tauto.
Qed.

#[global] Instance newest_first_total : Total newest_first.
Proof. intros r1 r2. unfold newest_first. lia. Qed.

#[global] Instance newest_first_trans : Transitive newest_first.
Proof. intros r1 r2 r3. unfold newest_first. lia. Qed.

#[global] Instance latest_update_first_total : Total latest_update_first.
Proof. intros r1 r2. unfold latest_update_first. lia. Qed.

#[global] Instance latest_update_first_trans : Transitive latest_update_first.
Proof. intros r1 r2 r3. unfold latest_update_first. lia. Qed.

(** ** The milestone poll *)

(** C1. [check_new_milestones] handles each row of its poll in turn: it
    calls [send_email] for the milestone and then runs the update of the
    flag, whatever [send_email] returned. The history grows by one
    attempt followed by one update per polled row; afterwards every
    polled milestone is in the table with its flag set, and the store is
    the same under any other behaviour of the mail relay. *)
Theorem check_new_milestones_marks_whatever_delivery
    (smtp smtp' : list event -> Email -> bool) (self : NotificationService)
    (now : Z) (w : World) :
  let rows := poll_new_milestones now (db w) in
  let w1 := (check_new_milestones smtp self now w).2 in
  (exists turns,
      log w1 = log w ++ concat turns
      /\ Forall2 (fun row turn => exists delivered, turn = turn_of self row delivered)
                 rows turns)
  /\ (forall row, row ∈ rows -> notified row.1 ∈ milestones (db w1))
  /\ (forall row m, row ∈ rows -> m ∈ milestones (db w1) ->
        milestone_id m = milestone_id row.1 -> notification_sent m = true)
  /\ db (check_new_milestones smtp' self now w).2 = db w1.
Proof.
  intros rows w1. subst w1.
  destruct (check_new_milestones_run smtp self now w) as (turns & Hrun & Hturns).
  destruct (check_new_milestones_run smtp' self now w) as (turns' & Hrun' & _).
  rewrite Hrun, Hrun'. cbn [snd db log]. fold rows in Hturns |- *.
  assert (Hids : forall row, row ∈ rows -> milestone_id row.1 ∈ ids_of rows).
  { intros row Hrow. unfold ids_of. apply list_elem_of_fmap. eauto. }
  split; [eauto|]. split; [|split; [|reflexivity]].
  - intros [m s] Hrow. apply mark_all_milestones. exists m. split.
    + apply elem_of_poll_new_milestones in Hrow. tauto.
    + left. split; [exact (Hids _ Hrow)|reflexivity].
  - intros row m Hrow Hm Hid.
    apply mark_all_milestones in Hm as (m0 & _ & [[_ ->]|[Hnin ->]]); [reflexivity|].
    exfalso. apply Hnin. rewrite Hid. auto.
Qed.

(** With a relay that refuses every message the milestone is marked all
    the same. *)
Example marked_although_relay_down :
  check_new_milestones Scenario.relay_down Scenario.service 10300
    (Scenario.world [Scenario.departed])
  = (tt, {| db := Scenario.store [notified Scenario.departed];
            log := turn_of Scenario.service (Scenario.departed, Scenario.booked) false |}).
Proof. vm_compute. reflexivity. Qed.

(** The scenario of the specification: the poll within 15 minutes of
    the posting of VESSEL_DEPARTED for BK1001 sends one message, whose
    subject shows the formatted name and the booking number and whose body
    has no location and no notes. *)
Example vessel_departed_scenario :
  attempts (log (check_new_milestones Scenario.relay_up Scenario.service 10300
                   (Scenario.world [Scenario.departed])).2)
  = [{| recipients := ["vhc-team@example.com"];
        subject := [Lit "Milestone Update: "; Lit "Vessel Departed"; Lit " - "; Lit "BK1001"];
        html := [Lit "Vessel Departed"; Lit "BK1001"; Lit "Pending"; Lit "N/A";
                 Strftime "%Y-%m-%d %H:%M UTC" 10000; NowYear] |}].
Proof. vm_compute. reflexivity. Qed.

(** No row of a poll that follows a run has the id of a row the run
    processed. *)
Lemma processed_not_polled_again now1 now2 d row row2 :
  row ∈ poll_new_milestones now1 d ->
  row2 ∈ poll_new_milestones now2 (mark_all (poll_new_milestones now1 d) d) ->
  milestone_id row2.1 <> milestone_id row.1.
Proof.
  intros Hrow Hrow2 Heq. destruct row2 as [m2 s2].
  apply elem_of_poll_new_milestones in Hrow2 as (Hm2 & _ & _ & Hflag & _).
  apply mark_all_milestones in Hm2 as (m0 & _ & [[_ ->]|[Hnin ->]]); [discriminate|].
  apply Hnin. cbn in Heq. rewrite Heq. unfold ids_of. apply list_elem_of_fmap. eauto.
Qed.

(** A poll that follows a run, at the same time or later, is empty. *)
Lemma poll_after_run_empty now1 now2 d :
  now1 <= now2 ->
  poll_new_milestones now2 (mark_all (poll_new_milestones now1 d) d) = [].
Proof.
  intros Hle.
  destruct (poll_new_milestones now2 _) as [|[m2 s2] rest] eqn:Hpoll; [reflexivity|].
  exfalso.
  assert (Hin : (m2, s2) ∈ poll_new_milestones now2 (mark_all (poll_new_milestones now1 d) d))
    by (rewrite Hpoll; left).
  pose proof Hin as Hrow2.
  apply elem_of_poll_new_milestones in Hin as (Hm2 & Hs2 & Hjoin & Hflag & Hst & Hdate).
  destruct (mark_all_frame (poll_new_milestones now1 d) d) as (Hships & _ & _).
  rewrite Hships in Hs2.
  apply mark_all_milestones in Hm2 as (m0 & Hm0 & [[_ ->]|[Hnin Heq]]); [discriminate|].
  subst m0.
  assert (Hrow1 : (m2, s2) ∈ poll_new_milestones now1 d).
  { apply elem_of_poll_new_milestones. repeat split; try done. lia. }
  exact (processed_not_polled_again now1 now2 d _ _ Hrow1 Hrow2 eq_refl).
Qed.

(** C2. A second run of [check_new_milestones] right after a first one
    polls no milestone that the first run processed, so its history holds
    no attempt and no update for any of them; when its clock is not
    behind the first run's, it polls nothing at all and leaves the world
    as it is. *)
Theorem check_new_milestones_twice
    (smtp : list event -> Email -> bool) (self : NotificationService)
    (now1 now2 : Z) (w : World) :
  let w1 := (check_new_milestones smtp self now1 w).2 in
  let w2 := (check_new_milestones smtp self now2 w1).2 in
  (forall row row2,
      row ∈ poll_new_milestones now1 (db w) ->
      row2 ∈ poll_new_milestones now2 (db w1) ->
      milestone_id row2.1 <> milestone_id row.1)
  /\ (exists new,
        log w2 = log w1 ++ new
        /\ length (attempts new) = length (poll_new_milestones now2 (db w1))
        /\ forall row, row ∈ poll_new_milestones now1 (db w) ->
             Forall (fun ev => ~ concerns_milestone (milestone_id row.1) ev) new)
  /\ (now1 <= now2 -> w2 = w1).
Proof.
  intros w1 w2.
  destruct (check_new_milestones_run smtp self now1 w) as (turns1 & Hrun1 & Hturns1).
  assert (Hw1 : w1 = {| db := mark_all (poll_new_milestones now1 (db w)) (db w);
                        log := log w ++ concat turns1 |})
    by (subst w1; rewrite Hrun1; reflexivity).
  destruct (check_new_milestones_run smtp self now2 w1) as (turns2 & Hrun2 & Hturns2).
  assert (Hw2 : w2 = {| db := mark_all (poll_new_milestones now2 (db w1)) (db w1);
                        log := log w1 ++ concat turns2 |})
    by (subst w2; rewrite Hrun2; reflexivity).
  assert (Hfresh : forall row row2,
             row ∈ poll_new_milestones now1 (db w) ->
             row2 ∈ poll_new_milestones now2 (db w1) ->
             milestone_id row2.1 <> milestone_id row.1).
  { intros row row2 Hrow Hrow2. rewrite Hw1 in Hrow2. cbn [db] in Hrow2.
    eapply processed_not_polled_again; eauto. }
  split; [exact Hfresh|]. split.
  - exists (concat turns2). split; [rewrite Hw2; reflexivity|]. split.
    + clear -Hturns2. induction Hturns2 as [|row turn rows turns [delivered ->] _ IH]; [reflexivity|].
      cbn [concat]. rewrite attempts_app. unfold turn_of.
      rewrite attempts_cons_email, attempts_cons_mark. cbn. rewrite IH. reflexivity.
    + intros row Hrow. pose proof (fun row2 => Hfresh row row2 Hrow) as Hne.
      clear -Hturns2 Hne. revert Hne.
      induction Hturns2 as [|row2 turn rows turns [delivered ->] _ IH]; intros Hne; [constructor|].
      cbn [concat]. apply Forall_app. split.
      * assert (milestone_id row2.1 <> milestone_id row.1) by (apply Hne; left).
        unfold turn_of. repeat constructor; cbn; done.
      * apply IH. intros r Hr. apply Hne. by right.
  - intros Hle. rewrite Hw2.
    assert (Hempty : poll_new_milestones now2 (db w1) = []).
    { rewrite Hw1. cbn [db]. by apply poll_after_run_empty. }
    rewrite Hempty in Hturns2 |- *. inversion Hturns2; subst. cbn.
    rewrite app_nil_r. destruct w1; reflexivity.
Qed.

Lemma poll_new_milestones_sorted now d :
  StronglySorted newest_first (poll_new_milestones now d).
Proof. apply StronglySorted_merge_sort; apply _. Qed.

(** C3, as stated, fails: a milestone dated after the time of the poll is
    selected although its date does not lie within the last 15 minutes. *)
Lemma poll_selects_future_dated_milestone :
  (Scenario.future_dated, Scenario.booked)
    ∈ poll_new_milestones 10300 (Scenario.store [Scenario.future_dated])
  /\ ~ within_last_15_minutes 10300 (actual_date Scenario.future_dated).
Proof.
  split.
  - vm_compute. left.
  - unfold within_last_15_minutes. cbn. lia.
Qed.

(** C3, amended. The poll of [check_new_milestones] returns exactly the
    pairs of a milestone and a shipment with the milestone's shipment id,
    such that the milestone's flag is false, its status is COMPLETED and
    its date is later than 15 minutes before the time of the poll (with
    no upper bound on the date); each such pair as often as the join
    yields it, the later date first. *)
Theorem poll_new_milestones_spec (now : Z) (d : DB) :
  (forall m s,
      (m, s) ∈ poll_new_milestones now d <->
      m ∈ milestones d /\ s ∈ shipments d /\ m_shipment_id m = shipment_id s
      /\ notification_sent m = false
      /\ milestone_status m = "COMPLETED"
      /\ now - 15 * 60 < actual_date m)
  /\ poll_new_milestones now d ≡ₚ
       filter (unnotified_recent now)
              (join_shipments m_shipment_id (milestones d) (shipments d))
  /\ StronglySorted (fun r1 r2 => actual_date r2.1 <= actual_date r1.1)
                    (poll_new_milestones now d).
Proof.
  split; [|split].
  - intros m s. apply elem_of_poll_new_milestones.
  - apply poll_new_milestones_perm.
  - apply poll_new_milestones_sorted.
Qed.

(** ** The exception poll *)

Lemma check_exceptions_run smtp environ self now w :
  db (check_exceptions smtp environ self now w).2 = db w
  /\ exists new,
       log (check_exceptions smtp environ self now w).2 = log w ++ new
       /\ attempts new = map (alert_email environ self) (poll_exceptions now (db w))
       /\ Forall2 (fun row ev => exists delivered,
                     ev = EmailAttempt (AboutException (exception_id row.1))
                            (alert_email environ self row) delivered)
                  (poll_exceptions now (db w)) new.
Proof. unfold check_exceptions. run_m. apply exception_loop. Qed.

(** C4. [check_exceptions] leaves the store as it is, and each run sends
    one alert per row of its poll. So of two consecutive runs each sends
    the alert of every open exception of a live shipment that is newer
    than 15 minutes at both times, and two runs at the same time send the
    same list of alerts twice. *)
Theorem check_exceptions_resends
    (smtp : list event -> Email -> bool) (environ : gmap string string)
    (self : NotificationService) (now1 now2 : Z) (w : World) :
  let w1 := (check_exceptions smtp environ self now1 w).2 in
  let w2 := (check_exceptions smtp environ self now2 w1).2 in
  db w1 = db w /\ db w2 = db w
  /\ exists new1 new2,
       log w1 = log w ++ new1 /\ log w2 = log w1 ++ new2
       /\ attempts new1 = map (alert_email environ self) (poll_exceptions now1 (db w))
       /\ attempts new2 = map (alert_email environ self) (poll_exceptions now2 (db w))
       /\ (now1 = now2 -> attempts (new1 ++ new2) = attempts new1 ++ attempts new1)
       /\ forall e s,
            e ∈ exceptions (db w) -> s ∈ shipments (db w) ->
            e_shipment_id e = shipment_id s ->
            status e = "OPEN" ->
            now1 - 15 * 60 < created_at e -> now2 - 15 * 60 < created_at e ->
            alert_email environ self (e, s) ∈ attempts new1
            /\ alert_email environ self (e, s) ∈ attempts new2.
Proof.
  intros w1 w2.
  destruct (check_exceptions_run smtp environ self now1 w) as (Hdb1 & new1 & Hlog1 & Hatt1 & _).
  destruct (check_exceptions_run smtp environ self now2 w1) as (Hdb2 & new2 & Hlog2 & Hatt2 & _).
  fold w1 in Hdb1, Hlog1. fold w2 in Hdb2, Hlog2. rewrite Hdb1 in Hdb2, Hatt2.
  split; [exact Hdb1|]. split; [exact Hdb2|].
  exists new1, new2. repeat (split; [done|]). split.
  - intros ->. rewrite attempts_app, Hatt1, Hatt2. reflexivity.
  - intros e s He Hs Hjoin Hopen Hnew1 Hnew2. rewrite Hatt1, Hatt2.
    split; apply list_elem_of_fmap; exists (e, s); (split; [reflexivity|]);
      apply elem_of_poll_exceptions; done.
Qed.

(** ** Milestones that fall out of the window *)

Lemma exec_cons smtp environ self o ops w :
  exec smtp environ self (o :: ops) w
  = exec smtp environ self ops (exec_op smtp environ self o w).
Proof. reflexivity. Qed.

Lemma milestones_with_id_update mid mid' d :
  mid' <> mid ->
  milestones_with_id mid (update_notification_sent mid' d) = milestones_with_id mid d.
Proof.
  intros Hne. unfold milestones_with_id, update_notification_sent. cbn [milestones].
  induction (milestones d) as [|m ms IH]; [reflexivity|].
  cbn [map]. rewrite !filter_cons, set_notified_id, IH.
  case_decide; [|reflexivity].
  rewrite set_notified_miss by congruence. reflexivity.
Qed.

Lemma milestones_with_id_mark_all mid rows d :
  ¬ mid ∈ ids_of rows ->
  milestones_with_id mid (mark_all rows d) = milestones_with_id mid d.
Proof.
  revert d. induction rows as [|row rows IH]; intros d Hnin; [reflexivity|].
  unfold ids_of in Hnin. cbn [map] in Hnin. apply not_elem_of_cons in Hnin as [Hne Hnin].
  rewrite mark_all_cons, IH by exact Hnin.
  apply milestones_with_id_update. congruence.
Qed.

Lemma send_daily_summary_run smtp self now w :
  exists e delivered,
    send_daily_summary smtp self now w =
      (tt, {| db := db w; log := log w ++ [EmailAttempt AboutSummary e delivered] |})
    /\ recipients e = vhc_recipients self
    /\ subject e = summary_subject
    /\ html e = summary_html
                  {| stat_active := count_active (db w);
                     stat_milestones_today := count_milestones_today now (db w);
                     stat_open_exceptions := count_open_exceptions (db w);
                     stat_docs_today := count_docs_today now (db w) |}
                  (recent_shipments (db w)).
Proof.
  unfold send_daily_summary, send_daily_summary_email. run_m.
  eexists _, _. split; [reflexivity|]. done.
Qed.

(** One operation: what it does for a milestone id that it misses. *)
Lemma exec_op_missed smtp environ self mid o w :
  missed_by mid o w ->
  kept_by smtp environ self mid o w
  /\ exists new, log (exec_op smtp environ self o w) = log w ++ new
       /\ Forall (fun ev => ~ concerns_milestone mid ev) new.
Proof.
  destruct o as [now|now|now|f]; cbn [missed_by kept_by exec_op].
  - intros Hold.
    destruct (check_new_milestones_run smtp self now w) as (turns & -> & Hturns).
    cbn [snd db log].
    assert (Hrows : forall row, row ∈ poll_new_milestones now (db w) -> milestone_id row.1 <> mid).
    { intros [m s] Hrow Hid. apply elem_of_poll_new_milestones in Hrow as (Hm & _ & _ & _ & _ & Hdate).
      rewrite Forall_forall in Hold. specialize (Hold m Hm Hid).
      unfold interval_15_minutes in Hdate. lia. }
    split.
    + apply milestones_with_id_mark_all. unfold ids_of. intros Hin.
      apply list_elem_of_fmap in Hin as (row & Heq & Hrow). by apply (Hrows row).
    + exists (concat turns). split; [reflexivity|].
      revert Hrows. induction Hturns as [|row turn rows turns' [delivered ->] _ IH];
        intros Hrows; [constructor|].
      cbn [concat]. apply Forall_app. split.
      * assert (milestone_id row.1 <> mid) by (apply Hrows; left).
        unfold turn_of. repeat constructor; cbn; done.
      * apply IH. intros r Hr. apply Hrows. by right.
  - intros _.
    destruct (check_exceptions_run smtp environ self now w) as (-> & new & -> & _ & Hall).
    split; [reflexivity|]. exists new. split; [reflexivity|].
    induction Hall as [|row ev rows evs [delivered ->] _ IH]; constructor; [|exact IH].
    cbn. tauto.
  - intros _.
    destruct (send_daily_summary_run smtp self now w) as (e & delivered & -> & _).
    cbn [snd db log]. split; [reflexivity|]. eexists. split; [reflexivity|].
    repeat constructor. cbn. tauto.
  - intros _. split; [exact I|]. exists []. cbn [log]. rewrite app_nil_r.
    split; [reflexivity|constructor].
Qed.

(** C5. Take any life of the service: runs of its jobs at any times,
    interleaved with any writes to the store by others. If at every run
    of [check_new_milestones] each row of the milestone table with the id
    [mid] is dated more than 15 minutes before the time of that run, then
    the whole history holds no email attempt and no flag update for
    [mid], and every job of the worker leaves the rows with that id,
    flags included, as it found them. *)
Theorem missed_milestone_never_notified
    (smtp : list event -> Email -> bool) (environ : gmap string string)
    (self : NotificationService) (mid : Z) (ops : list op) (w : World) :
  along smtp environ self (missed_by mid) ops w ->
  (exists new,
      log (exec smtp environ self ops w) = log w ++ new
      /\ Forall (fun ev => ~ concerns_milestone mid ev) new)
  /\ along smtp environ self (kept_by smtp environ self mid) ops w.
Proof.
  revert w. induction ops as [|o ops IH]; intros w Hmissed.
  - split; [|exact I]. exists []. cbn. rewrite app_nil_r. split; [reflexivity|constructor].
  - destruct Hmissed as [Ho Hrest].
    destruct (exec_op_missed smtp environ self mid o w Ho) as (Hkept & new1 & Hlog1 & Hnew1).
    destruct (IH _ Hrest) as ((new2 & Hlog2 & Hnew2) & Halong).
    split; [|split; assumption].
    exists (new1 ++ new2). rewrite exec_cons, Hlog2, Hlog1, app_assoc.
    split; [reflexivity|]. apply Forall_app. done.
Qed.

Lemma missed_milestone_never_notified_witness :
  let ops := run 10300 10300
               [StoreWrite (Scenario.post Scenario.departed);
                CheckNewMilestones 10600; SendDailySummary 10600] in
  let w := Scenario.world [Scenario.missed] in
  (exists new,
      log (exec Scenario.relay_up ∅ Scenario.service ops w) = log w ++ new
      /\ Forall (fun ev => ~ concerns_milestone 3 ev) new)
  /\ along Scenario.relay_up ∅ Scenario.service
       (kept_by Scenario.relay_up ∅ Scenario.service 3) ops w.
Proof.
  apply missed_milestone_never_notified.
  vm_compute. repeat split; repeat constructor; intros; first [reflexivity | discriminate].
Defined.

(** ** Recipients of an exception alert *)

(** Joining the fields of [Py.split] with the separator gives the string
    back. *)
Lemma split_not_nil sep s : Py.split sep s <> [].
Proof.
  destruct s as [|c rest]; [discriminate|]. cbn [Py.split].
  destruct (Ascii.eqb c sep); [discriminate|].
  destruct (Py.split sep rest); discriminate.
Qed.

Lemma split_join sep s :
  String.concat (String sep EmptyString) (Py.split sep s) = s.
Proof.
  induction s as [|c rest IH]; [reflexivity|].
  pose proof (split_not_nil sep rest) as Hnil.
  cbn [Py.split]. destruct (Ascii.eqb c sep) eqn:Hc.
  - apply Ascii.eqb_eq in Hc. subst c.
    destruct (Py.split sep rest) as [|field fields] eqn:Hs; [done|].
    cbn [String.concat] in *. cbn. rewrite IH. reflexivity.
  - destruct (Py.split sep rest) as [|field fields] eqn:Hs; [done|].
    destruct fields; cbn in *; rewrite <- IH; reflexivity.
Qed.

Lemma split_lacks sep s : Forall (lacks sep) (Py.split sep s).
Proof.
  induction s as [|c rest IH]; [repeat constructor|].
  cbn [Py.split]. destruct (Ascii.eqb c sep) eqn:Hc.
  - constructor; [exact I|exact IH].
  - apply Ascii.eqb_neq in Hc.
    destruct (Py.split sep rest) as [|field fields]; [repeat constructor; done|].
    apply Forall_cons in IH as [Hfield Hfields]. constructor; [|exact Hfields].
    cbn. done.
Qed.

Lemma escalation_contacts_not_blank environ :
  Forall (fun r => r <> EmptyString) (escalation_contacts environ).
Proof.
  unfold escalation_contacts. apply List.Forall_forall. intros r Hr.
  apply List.filter_In in Hr as [_ Hr]. intros ->. discriminate.
Qed.

Lemma alert_recipients_escalated environ self sev :
  sev = "HIGH" \/ sev = "CRITICAL" ->
  alert_recipients environ self sev = vhc_recipients self ++ escalation_contacts environ.
Proof.
  intros Hsev. unfold alert_recipients. rewrite bool_decide_eq_true_2 by exact Hsev.
  reflexivity.
Qed.

Lemma filter_truthy (l : list string) :
  List.filter Py.truthy l = filter (fun r => r <> EmptyString) l.
Proof.
  induction l as [|r l IH]; [reflexivity|].
  cbn [List.filter]. rewrite filter_cons, IH.
  destruct r; cbn [Py.truthy]; case_decide; congruence.
Qed.

(** C6. [send_exception_alert] calls [send_email] once. For the
    severity HIGH or CRITICAL the recipients are the base list followed
    by the escalation list of the configuration, that is, the non-empty
    ones of the comma-separated fields of [ESCALATION_EMAILS] (the empty
    text when it is unset), in their order; for the severity LOW or
    MEDIUM they are the base list. *)
Theorem send_exception_alert_recipients
    (smtp : list event -> Email -> bool) (environ : gmap string string)
    (self : NotificationService) (row : Exception * Shipment) (w : World) :
  exists e delivered fields,
    send_exception_alert smtp environ self row w =
      (tt, {| db := db w;
              log := log w ++ [EmailAttempt (AboutException (exception_id row.1)) e delivered] |})
    /\ String.concat "," fields
       = match environ !! "ESCALATION_EMAILS" with Some v => v | None => EmptyString end
    /\ Forall (lacks ",") fields
    /\ (severity row.1 = "HIGH" \/ severity row.1 = "CRITICAL" ->
        recipients e = vhc_recipients self ++ filter (fun r => r <> EmptyString) fields)
    /\ (severity row.1 = "LOW" \/ severity row.1 = "MEDIUM" ->
        recipients e = vhc_recipients self).
Proof.
  eexists _, _, (Py.split "," (Py.getenv environ "ESCALATION_EMAILS" EmptyString)).
  split; [apply send_exception_alert_run|].
  split; [apply (split_join ","%char)|]. split; [apply split_lacks|].
  cbn [recipients alert_email]. split.
  - intros Hsev. rewrite (alert_recipients_escalated _ _ _ Hsev).
    unfold escalation_contacts. rewrite filter_truthy. reflexivity.
  - intros Hsev. unfold alert_recipients. rewrite bool_decide_eq_false_2; [reflexivity|].
    intros [H|H]; rewrite H in Hsev; destruct Hsev; discriminate.
Qed.

(** C10. With [ESCALATION_EMAILS] unset or empty, the variable reads as
    the empty string, which splits into one empty field; the filter drops
    it, there is no escalation contact, and the alert of a HIGH or
    CRITICAL exception goes to the base list exactly. Whatever the
    configuration, no escalation contact is blank. *)
Theorem escalation_unset_keeps_base_list
    (smtp : list event -> Email -> bool) (environ : gmap string string)
    (self : NotificationService) (row : Exception * Shipment) (w : World) :
  environ !! "ESCALATION_EMAILS" = None \/ environ !! "ESCALATION_EMAILS" = Some EmptyString ->
  severity row.1 = "HIGH" \/ severity row.1 = "CRITICAL" ->
  Py.split "," (Py.getenv environ "ESCALATION_EMAILS" EmptyString) = [EmptyString]
  /\ escalation_contacts environ = []
  /\ (exists e delivered,
        send_exception_alert smtp environ self row w =
          (tt, {| db := db w;
                  log := log w ++ [EmailAttempt (AboutException (exception_id row.1)) e delivered] |})
        /\ recipients e = vhc_recipients self)
  /\ forall environ', Forall (fun r => r <> EmptyString) (escalation_contacts environ').
Proof.
  intros Henv Hsev.
  assert (Hget : Py.getenv environ "ESCALATION_EMAILS" EmptyString = EmptyString).
  { unfold Py.getenv. destruct Henv as [-> | ->]; reflexivity. }
  assert (Hnone : escalation_contacts environ = []).
  { unfold escalation_contacts. rewrite Hget. reflexivity. }
  split; [rewrite Hget; reflexivity|]. split; [exact Hnone|].
  split; [|apply escalation_contacts_not_blank].
  eexists _, _. split; [apply send_exception_alert_run|].
  cbn [recipients alert_email]. rewrite (alert_recipients_escalated _ _ _ Hsev), Hnone.
  apply app_nil_r.
Qed.

Lemma escalation_unset_keeps_base_list_witness :
  Py.split "," (Py.getenv ∅ "ESCALATION_EMAILS" EmptyString) = [EmptyString]
  /\ escalation_contacts ∅ = []
  /\ (exists e delivered,
        send_exception_alert Scenario.relay_up ∅ Scenario.service
          (Scenario.congestion, Scenario.booked) (Scenario.world []) =
          (tt, {| db := db (Scenario.world []);
                  log := log (Scenario.world [])
                         ++ [EmailAttempt (AboutException 1) e delivered] |})
        /\ recipients e = vhc_recipients Scenario.service)
  /\ forall environ', Forall (fun r => r <> EmptyString) (escalation_contacts environ').
Proof.
  apply (escalation_unset_keeps_base_list Scenario.relay_up ∅ Scenario.service
           (Scenario.congestion, Scenario.booked) (Scenario.world [])).
  - left. reflexivity.
  - right. reflexivity.
Defined.

(** ** Milestone names *)

Lemma is_cased_replace c :
  Py.is_cased (if Ascii.eqb c "_" then " "%char else c) = Py.is_cased c.
Proof.
  destruct (Ascii.eqb c "_") eqn:Hc; [|reflexivity].
  apply Ascii.eqb_eq in Hc. subst c. reflexivity.
Qed.

Lemma title_blank (prev : bool) :
  (if prev then Py.to_lower " " else Py.to_upper " ") = " "%char.
Proof. destruct prev; reflexivity. Qed.

Lemma title_replace_length prev s :
  String.length (Py.title_from prev (Py.replace "_" " " s)) = String.length s.
Proof.
  revert prev. induction s as [|c rest IH]; intros prev; [reflexivity|].
  cbn. rewrite IH. reflexivity.
Qed.

(** The character at each position of the title-cased, underscore-free
    name, when the position before the string counts as cased or not
    according to [prev]. *)
Lemma title_replace_get prev s n c :
  String.get n s = Some c ->
  String.get n (Py.title_from prev (Py.replace "_" " " s)) =
    Some (let before := match n with
                        | O => prev
                        | S k => match String.get k s with
                                 | Some p => Py.is_cased p
                                 | None => false
                                 end
                        end in
          if Ascii.eqb c "_" then " "%char
          else if before then Py.to_lower c else Py.to_upper c).
Proof.
  revert prev n. induction s as [|a rest IH]; intros prev n Hget.
  - destruct n; discriminate.
  - cbn [Py.replace Py.title_from]. destruct n as [|k].
    + cbn in Hget. injection Hget as ->. cbn [String.get].
      destruct (Ascii.eqb c "_"); [rewrite title_blank|]; reflexivity.
    + cbn [String.get] in Hget |- *.
      rewrite (IH _ _ Hget), is_cased_replace. cbn zeta.
      destruct k as [|j]; reflexivity.
Qed.

Lemma is_cased_letter c : Py.is_cased c = is_letter c.
Proof. destruct c as [[] [] [] [] [] [] [] []]; reflexivity. Qed.

Lemma to_upper_capital c : Py.to_upper c = capital c.
Proof. destruct c as [[] [] [] [] [] [] [] []]; reflexivity. Qed.

Lemma to_lower_small c : Py.to_lower c = small c.
Proof. destruct c as [[] [] [] [] [] [] [] []]; reflexivity. Qed.

(** The formatted name, character by character. *)
Lemma format_get (name : string) (n : nat) (c : ascii) :
  name <> EmptyString ->
  String.get n name = Some c ->
  String.get n (format_milestone_name (Some name)) = Some (shown_char name n c).
Proof.
  intros Hname Hget.
  assert (Hfmt : format_milestone_name (Some name) = Py.title (Py.replace "_" " " name)).
  { destruct name; [contradiction|reflexivity]. }
  rewrite Hfmt. unfold Py.title. rewrite (title_replace_get false name n c Hget).
  unfold shown_char, starts_word. cbn zeta.
  rewrite to_upper_capital, to_lower_small.
  destruct n as [|k]; [reflexivity|].
  destruct (String.get k name) as [p|]; [|reflexivity].
  rewrite is_cased_letter. destruct (is_letter p); reflexivity.
Qed.

Lemma format_length (name : string) :
  name <> EmptyString ->
  String.length (format_milestone_name (Some name)) = String.length name.
Proof.
  intros Hname. destruct name; [contradiction|]. apply title_replace_length.
Qed.

(** C7. [format_milestone_name] turns VESSEL_DEPARTED, and
    vessel_departed, into Vessel Departed, puts a capital after a digit
    too, and turns an absent or empty name into N/A. For any other name
    of ASCII text the result has the length of the name and, at each
    position, a space where the name has an underscore and otherwise the
    character of the name, as a capital when it is a letter that starts a
    word and as a small letter when it is a letter that does not. *)
Theorem format_milestone_name_spec :
  format_milestone_name (Some "VESSEL_DEPARTED") = "Vessel Departed"
  /\ format_milestone_name (Some "vessel_departed") = "Vessel Departed"
  /\ format_milestone_name (Some "pod_2nd_eta") = "Pod 2Nd Eta"
  /\ format_milestone_name None = "N/A"
  /\ format_milestone_name (Some EmptyString) = "N/A"
  /\ forall name : string, name <> EmptyString -> ascii_only name ->
       String.length (format_milestone_name (Some name)) = String.length name
       /\ forall (n : nat) (c : ascii), String.get n name = Some c ->
            String.get n (format_milestone_name (Some name)) = Some (shown_char name n c).
Proof.
  repeat (split; [reflexivity|]).
  intros name Hname _. split; [by apply format_length|].
  intros n c. by apply format_get.
Qed.

(** ** The daily summary *)

Lemma recent_shipments_top d :
  recent_shipments d ++ drop 10 (merge_sort latest_update_first (filter active (shipments d)))
  = merge_sort latest_update_first (filter active (shipments d)).
Proof. apply take_drop. Qed.

Lemma or_default_container s :
  Py.or_default (container_number s) "Pending" = container_cell s.
Proof.
  unfold Py.or_default, container_cell.
  destruct (container_number s) as [[|c rest]|]; reflexivity.
Qed.

Lemma shipments_html_rows rows :
  shipments_html rows =
  concat (map (fun s => [Lit (booking_number s); Lit (container_cell s);
                         Lit (format_milestone_name (current_milestone s))]) rows).
Proof.
  unfold shipments_html. induction rows as [|s rows IH]; [reflexivity|].
  rewrite bind_cons, IH, or_default_container. reflexivity.
Qed.

(** C8. [send_daily_summary] leaves the store as it is and calls
    [send_email] once, for the base recipients, with a body that shows the
    number of shipments whose status is not COMPLETED, the number of
    milestones dated on the day of [now], the number of documents created
    on that day and the number of exceptions whose status is not
    RESOLVED, followed by one table row per listed shipment: its booking
    number, its container number (Pending when it has none) and its
    current milestone, formatted. The listed shipments are the first ten
    (all, if there are fewer) of the shipments whose status is not
    COMPLETED, in descending order of [updated_at]. *)
Theorem send_daily_summary_spec
    (smtp : list event -> Email -> bool) (self : NotificationService)
    (now : Z) (w : World) :
  exists e delivered rest,
    send_daily_summary smtp self now w =
      (tt, {| db := db w; log := log w ++ [EmailAttempt AboutSummary e delivered] |})
    /\ recipients e = vhc_recipients self
    /\ subject e = [Lit "Daily Shipment Summary - "; NowStrftime "%Y-%m-%d"]
    /\ html e =
         [NowStrftime "%B %d, %Y";
          Int (Z.of_nat (length (filter (fun s => current_status s <> "COMPLETED")
                                        (shipments (db w)))));
          Int (Z.of_nat (length (filter (fun m => actual_date m / 86400 = now / 86400)
                                        (milestones (db w)))));
          Int (Z.of_nat (length (filter (fun x => d_created_at x / 86400 = now / 86400)
                                        (documents (db w)))));
          Int (Z.of_nat (length (filter (fun x => status x <> "RESOLVED")
                                        (exceptions (db w)))))]
         ++ concat (map (fun s => [Lit (booking_number s);
                                   Lit (match container_number s with
                                        | Some (String c number) => String c number
                                        | _ => "Pending"
                                        end);
                                   Lit (format_milestone_name (current_milestone s))])
                        (recent_shipments (db w)))
    /\ recent_shipments (db w) ++ rest ≡ₚ
         filter (fun s => current_status s <> "COMPLETED") (shipments (db w))
    /\ StronglySorted (fun s1 s2 => updated_at s2 <= updated_at s1)
                      (recent_shipments (db w) ++ rest)
    /\ length (recent_shipments (db w)) =
         Nat.min 10 (length (filter (fun s => current_status s <> "COMPLETED")
                                    (shipments (db w)))).
Proof.
  destruct (send_daily_summary_run smtp self now w)
    as (e & delivered & Hrun & Hto & Hsubj & Hhtml).
  exists e, delivered, (drop 10 (merge_sort latest_update_first (filter active (shipments (db w))))).
  split; [exact Hrun|]. split; [exact Hto|]. split; [exact Hsubj|].
  split; [rewrite Hhtml; unfold summary_html; rewrite shipments_html_rows; reflexivity|].
  rewrite recent_shipments_top. split; [|split].
  - apply merge_sort_Permutation.
  - apply (StronglySorted_merge_sort latest_update_first).
  - unfold recent_shipments. rewrite length_take.
    rewrite (Permutation_length (merge_sort_Permutation latest_update_first _)).
    reflexivity.
Qed.

(** The scenario of the specification: three shipments that are not
    completed, two milestones today, one open exception, no document
    today. *)
Example daily_summary_scenario :
  attempts (log (send_daily_summary Scenario.relay_up Scenario.service Scenario.today
                   {| db := Scenario.summary_day; log := [] |}).2)
  = [{| recipients := ["vhc-team@example.com"];
        subject := [Lit "Daily Shipment Summary - "; NowStrftime "%Y-%m-%d"];
        html := [NowStrftime "%B %d, %Y"; Int 3; Int 2; Int 0; Int 1;
                 Lit "BK3"; Lit "Pending"; Lit "Vessel Departed";
                 Lit "BK4"; Lit "Pending"; Lit "Vessel Departed";
                 Lit "BK1"; Lit "Pending"; Lit "Vessel Departed"] |}].
Proof. vm_compute. reflexivity. Qed.

(** ** Requests with a missing field *)

Section MissingFields.

Import Api.
Variable data : gmap string json.

Lemma get_missing key : data !! key = None -> get data key = JNull.
Proof. unfold get. intros ->. reflexivity. Qed.

Lemma has_all_missing fields key :
  key ∈ fields -> data !! key = None -> has_all data fields = false.
Proof.
  intros Hin Hnone. unfold has_all. apply not_true_is_false. intros Hall.
  rewrite forallb_forall in Hall. apply list_elem_of_In in Hin.
  specialize (Hall key Hin). apply bool_decide_eq_true in Hall.
  rewrite Hnone in Hall. by destruct Hall.
Qed.

Lemma login_missing key :
  key ∈ ["email"; "password"] -> data !! key = None ->
  login data = Respond 400 "Email and password required".
Proof.
  intros Hin Hnone. unfold login.
  assert (get data key = JNull) as Hget by (by apply get_missing).
  apply elem_of_cons in Hin as [->|Hin]; [rewrite Hget; reflexivity|].
  apply list_elem_of_singleton in Hin as ->. rewrite Hget.
  rewrite orb_true_r. reflexivity.
Qed.

Lemma register_user_missing key :
  key ∈ ["email"; "password"; "full_name"; "role"] -> data !! key = None ->
  register_user data = Respond 400 "Missing required fields".
Proof.
  intros Hin Hnone. unfold register_user.
  rewrite (has_all_missing _ key Hin Hnone). reflexivity.
Qed.

Lemma create_shipment_missing :
  data !! "booking_number" = None ->
  create_shipment data = Respond 400 "Missing required fields".
Proof.
  intros Hnone. unfold create_shipment.
  rewrite (has_all_missing _ "booking_number"); [reflexivity|left|exact Hnone].
Qed.

Lemma update_milestone_missing shipment_id :
  data !! "milestone_name" = None ->
  update_milestone shipment_id data = Respond 400 "milestone_name required".
Proof. intros Hnone. unfold update_milestone. rewrite get_missing by done. reflexivity. Qed.

Lemma create_invoice_missing key :
  key ∈ ["shipment_id"; "invoice_number"; "total_amount"] -> data !! key = None ->
  create_invoice data = Respond 400 "Missing required fields".
Proof.
  intros Hin Hnone. unfold create_invoice.
  rewrite (has_all_missing _ key Hin Hnone). reflexivity.
Qed.

Lemma upload_document_missing shipment_id (files form : gmap string string) :
  files !! "file" = None \/ form !! "document_type" = None ->
  exists error, upload_document shipment_id files form = Respond 400 error.
Proof.
  intros [Hnone|Hnone]; unfold upload_document.
  - rewrite Hnone. eauto.
  - destruct (files !! "file"); rewrite ?Hnone; eauto.
Qed.

(** [create_exception] has no such check: without a title it raises. *)
Lemma create_exception_missing shipment_id :
  data !! "title" = None ->
  create_exception shipment_id data = Raised (KeyError "title").
Proof. intros Hnone. unfold create_exception, getitem. rewrite Hnone. reflexivity. Qed.

End MissingFields.

(** C9 fails on [create_exception]: for a body with no title, sent by a
    user whose role is allowed, the handler raises [KeyError] before it
    reaches the store, and the client gets the status 500 and not 400. *)
Theorem create_exception_without_title :
  Api.create_exception_route (Some "ADMIN") 1 {[ "severity" := Api.JStr "HIGH" ]}
    = Api.Raised (Api.KeyError "title")
  /\ Api.http_status
       (Api.create_exception_route (Some "ADMIN") 1 {[ "severity" := Api.JStr "HIGH" ]})
     = Some 500
  /\ Api.http_status
       (Api.create_exception_route (Some "ADMIN") 1 {[ "severity" := Api.JStr "HIGH" ]})
     <> Some 400.
Proof. vm_compute. repeat split; discriminate. Qed.


(** * Further properties *)

(** ** What a run of [check_new_milestones] changes *)

Lemma notified_notified m : notified (notified m) = notified m.
Proof. reflexivity. Qed.

Lemma notified_flagged m : notification_sent m = true -> notified m = m.
Proof. destruct m. cbn. intros ->. reflexivity. Qed.

Lemma mark_if_polled_cons mid ids m :
  mark_if_polled ids (set_notified mid m) = mark_if_polled (mid :: ids) m.
Proof.
  unfold mark_if_polled. rewrite set_notified_id.
  destruct (decide (milestone_id m = mid)) as [Heq|Hne].
  - rewrite <- Heq, set_notified_hit.
    rewrite (bool_decide_eq_true_2 (milestone_id m ∈ milestone_id m :: ids)) by left.
    case_bool_decide; reflexivity.
  - rewrite set_notified_miss by exact Hne.
    rewrite (bool_decide_ext (milestone_id m ∈ mid :: ids) (milestone_id m ∈ ids));
      [reflexivity|]. rewrite elem_of_cons. tauto.
Qed.

Lemma mark_all_map rows d :
  milestones (mark_all rows d) = map (mark_if_polled (ids_of rows)) (milestones d).
Proof.
  revert d. induction rows as [|row rows IH]; intros d.
  - cbn. induction (milestones d) as [|m ms IHms]; [reflexivity|].
    cbn [map]. rewrite <- IHms. reflexivity.
  - rewrite mark_all_cons, IH. cbn [milestones update_notification_sent].
    rewrite map_map. apply map_ext. intros m. apply mark_if_polled_cons.
Qed.

(** X1. A run of [check_new_milestones] leaves the shipments, the
    exceptions and the documents as they are. The milestone table keeps
    its rows in place: each row is unchanged, or it had a false flag and
    a polled id and differs only by its flag, now true. No flag is ever
    cleared. *)
Theorem check_new_milestones_frame
    (smtp : list event -> Email -> bool) (self : NotificationService)
    (now : Z) (w : World) :
  let d1 := db (check_new_milestones smtp self now w).2 in
  shipments d1 = shipments (db w)
  /\ exceptions d1 = exceptions (db w)
  /\ documents d1 = documents (db w)
  /\ Forall2 (fun m m' =>
                (m' = m
                 \/ (notification_sent m = false
                     /\ milestone_id m ∈ ids_of (poll_new_milestones now (db w))
                     /\ m' = notified m))
                /\ (notification_sent m = true -> notification_sent m' = true))
             (milestones (db w)) (milestones d1).
Proof.
  intros d1. subst d1.
  destruct (check_new_milestones_run smtp self now w) as (turns & -> & _).
  cbn [snd db].
  destruct (mark_all_frame (poll_new_milestones now (db w)) (db w)) as (Hs & He & Hd).
  repeat (split; [assumption|]).
  rewrite mark_all_map. apply Forall2_fmap_r, Forall_Forall2_diag, Forall_forall.
  intros m _. unfold mark_if_polled, compose. cbn beta. case_bool_decide.
  - destruct (notification_sent m) eqn:Hflag.
    + rewrite notified_flagged by exact Hflag. split; [by left|done].
    + split; [right; done|discriminate].
  - split; [by left|done].
Qed.

(** The events of the turns of a run, by milestone id. *)
Lemma turns_events self rows turns mid :
  Forall2 (fun row turn => exists delivered, turn = turn_of self row delivered) rows turns ->
  (Exists (attempt_about mid) (concat turns) <-> mid ∈ ids_of rows)
  /\ (MarkNotified mid ∈ concat turns <-> mid ∈ ids_of rows)
  /\ (Exists (concerns_milestone mid) (concat turns) <-> mid ∈ ids_of rows)
  /\ attempts_about mid (concat turns) = length (filter (fun i => i = mid) (ids_of rows)).
Proof.
  unfold attempts_about, ids_of.
  induction 1 as [|row turn rows turns [delivered ->] _ (IH1 & IH2 & IH3 & IH4)].
  - cbn. rewrite !Exists_nil, !elem_of_nil. tauto.
  - cbn [concat map]. rewrite !Exists_app, elem_of_app, filter_app, length_app, IH1, IH2, IH3, IH4.
    rewrite !elem_of_cons. unfold turn_of.
    rewrite !Exists_cons, !Exists_nil, !elem_of_cons, elem_of_nil. cbn [attempt_about concerns_milestone].
    rewrite !filter_cons, filter_nil. cbn [attempt_about].
    repeat split; try (intuition congruence).
    repeat case_decide; cbn [attempt_about] in *;
      first [contradiction | congruence | reflexivity].
Qed.

(** X2. In a run of [check_new_milestones] at time [now], [send_email]
    is called for a milestone id exactly when the flag update for that id
    is run, and exactly when the table has a row with that id that is
    unflagged, COMPLETED, later than 15 minutes before [now] and whose
    shipment row exists. So a milestone that is not completed, is already
    flagged, or has no shipment row is neither notified nor marked. *)
Theorem milestone_touched_iff_eligible
    (smtp : list event -> Email -> bool) (self : NotificationService)
    (now : Z) (w : World) (mid : Z) :
  let eligible :=
    exists m s, milestone_id m = mid
      /\ m ∈ milestones (db w) /\ s ∈ shipments (db w)
      /\ m_shipment_id m = shipment_id s
      /\ notification_sent m = false
      /\ milestone_status m = "COMPLETED"
      /\ now - 15 * 60 < actual_date m in
  exists new,
    log (check_new_milestones smtp self now w).2 = log w ++ new
    /\ (Exists (attempt_about mid) new <-> eligible)
    /\ (MarkNotified mid ∈ new <-> eligible).
Proof.
  intros eligible.
  destruct (check_new_milestones_run smtp self now w) as (turns & -> & Hturns).
  destruct (turns_events self _ _ mid Hturns) as (Hatt & Hmark & _ & _).
  assert (Hel : mid ∈ ids_of (poll_new_milestones now (db w)) <-> eligible).
  { unfold ids_of, eligible. rewrite list_elem_of_fmap. split.
    - intros ([m s] & -> & Hrow). exists m, s. split; [reflexivity|].
      by apply elem_of_poll_new_milestones.
    - intros (m & s & <- & Hrow). exists (m, s). split; [reflexivity|].
      by apply elem_of_poll_new_milestones. }
  exists (concat turns). cbn [snd log]. split; [reflexivity|].
  rewrite Hatt, Hmark. split; exact Hel.
Qed.

(** X3. In a run of [check_exceptions] at time [now], an alert is sent
    for an exception id exactly when the table has a row with that id
    that is OPEN, later than 15 minutes before [now] and whose shipment
    row exists: a resolved or older exception is never alerted. *)
Theorem exception_alerted_iff_eligible
    (smtp : list event -> Email -> bool) (environ : gmap string string)
    (self : NotificationService) (now : Z) (w : World) (eid : Z) :
  exists new,
    log (check_exceptions smtp environ self now w).2 = log w ++ new
    /\ (Exists (alert_about eid) new <->
        exists e s, exception_id e = eid
          /\ e ∈ exceptions (db w) /\ s ∈ shipments (db w)
          /\ e_shipment_id e = shipment_id s
          /\ now - 15 * 60 < created_at e
          /\ status e = "OPEN").
Proof.
  destruct (check_exceptions_run smtp environ self now w) as (_ & new & Hlog & _ & Hall).
  exists new. split; [exact Hlog|].
  transitivity (exists row, row ∈ poll_exceptions now (db w) /\ exception_id row.1 = eid).
  - clear Hlog. induction Hall as [|row ev rows evs [delivered ->] _ IH].
    + rewrite Exists_nil. split; [tauto|]. intros (row & Hrow & _). by apply elem_of_nil in Hrow.
    + rewrite Exists_cons, IH. cbn [alert_about]. split.
      * intros [Heq|(r & Hr & Heq)]; [exists row|exists r]; split; try done; [left|by right].
      * intros (r & Hr & Heq). apply elem_of_cons in Hr as [->|Hr]; [by left|right; eauto].
  - split.
    + intros ([e s] & Hrow & Heq). exists e, s. split; [exact Heq|].
      by apply elem_of_poll_exceptions.
    + intros (e & s & Heq & Hrow). exists (e, s). split; [|exact Heq].
      by apply elem_of_poll_exceptions.
Qed.

(** ** Once processed, never again *)

Lemma mark_if_polled_id ids m : milestone_id (mark_if_polled ids m) = milestone_id m.
Proof. unfold mark_if_polled. case_bool_decide; reflexivity. Qed.

Lemma flagged_mark_all mid rows d :
  flagged mid d \/ mid ∈ ids_of rows -> flagged mid (mark_all rows d).
Proof.
  unfold flagged. rewrite mark_all_map. intros Hor.
  apply Forall_fmap, Forall_forall. intros m Hm. unfold compose.
  rewrite mark_if_polled_id. intros Hid. unfold mark_if_polled. case_bool_decide as Hin.
  - reflexivity.
  - destruct Hor as [Hfl|Hpolled]; [|subst mid; contradiction].
    rewrite Forall_forall in Hfl. by apply Hfl.
Qed.

Lemma flagged_unpolled mid now d :
  flagged mid d -> ¬ mid ∈ ids_of (poll_new_milestones now d).
Proof.
  unfold flagged, ids_of. rewrite Forall_forall. intros Hfl Hin.
  apply list_elem_of_fmap in Hin as ([m s] & -> & Hrow).
  apply elem_of_poll_new_milestones in Hrow as (Hm & _ & _ & Hflag & _).
  cbn in Hflag. rewrite (Hfl m Hm eq_refl) in Hflag. discriminate.
Qed.

Lemma flagged_with_id mid d :
  flagged mid d <-> Forall (fun m => notification_sent m = true) (milestones_with_id mid d).
Proof.
  unfold flagged, milestones_with_id. rewrite !Forall_forall. split.
  - intros H m Hm. apply list_elem_of_filter in Hm as [Hid Hm]. by apply H.
  - intros H m Hm Hid. apply H. apply list_elem_of_filter. done.
Qed.

Lemma unconcerned_no_attempt mid new :
  Forall (fun ev => ~ concerns_milestone mid ev) new -> attempts_about mid new = 0%nat.
Proof.
  unfold attempts_about. induction 1 as [|ev evs Hev _ IH]; [reflexivity|].
  rewrite filter_cons. case_decide as Hatt; [|exact IH].
  exfalso. apply Hev. destruct ev as [[i|i|] e b|i]; cbn in *; done.
Qed.

(** A job that starts with every row of [mid] flagged leaves them
    flagged and does nothing about [mid]. *)
Lemma exec_op_flagged smtp environ self mid o w :
  is_job o -> flagged mid (db w) ->
  flagged mid (db (exec_op smtp environ self o w))
  /\ exists new, log (exec_op smtp environ self o w) = log w ++ new
       /\ Forall (fun ev => ~ concerns_milestone mid ev) new.
Proof.
  intros Hjob Hfl. destruct o as [now|now|now|f]; [|..|destruct Hjob].
  - cbn [exec_op].
    destruct (check_new_milestones_run smtp self now w) as (turns & -> & Hturns).
    cbn [snd db log]. split; [apply flagged_mark_all; by left|].
    exists (concat turns). split; [reflexivity|].
    destruct (turns_events self _ _ mid Hturns) as (_ & _ & Hconc & _).
    apply Forall_forall. intros ev Hev Hc.
    apply (flagged_unpolled mid now (db w) Hfl), Hconc, Exists_exists. eauto.
  - destruct (exec_op_missed smtp environ self mid (CheckExceptions now) w I) as (Hkept & Hnew).
    cbn [kept_by] in Hkept. split; [|exact Hnew].
    apply flagged_with_id. rewrite Hkept. by apply flagged_with_id.
  - destruct (exec_op_missed smtp environ self mid (SendDailySummary now) w I) as (Hkept & Hnew).
    cbn [kept_by] in Hkept. split; [|exact Hnew].
    apply flagged_with_id. rewrite Hkept. by apply flagged_with_id.
Qed.

Lemma exec_flagged smtp environ self mid ops w :
  Forall is_job ops -> flagged mid (db w) ->
  exists new, log (exec smtp environ self ops w) = log w ++ new
    /\ Forall (fun ev => ~ concerns_milestone mid ev) new.
Proof.
  intros Hjobs. revert w. induction Hjobs as [|o ops Hjob _ IH]; intros w Hfl.
  - exists []. cbn. rewrite app_nil_r. split; [reflexivity|constructor].
  - destruct (exec_op_flagged smtp environ self mid o w Hjob Hfl) as (Hfl' & new1 & Hlog1 & Hnew1).
    destruct (IH _ Hfl') as (new2 & Hlog2 & Hnew2).
    exists (new1 ++ new2). rewrite exec_cons, Hlog2, Hlog1, app_assoc.
    split; [reflexivity|]. apply Forall_app. done.
Qed.

(** X4. Once a run of [check_new_milestones] has polled a milestone,
    whether its message was delivered or refused, no later job of the
    worker, at any time and with any behaviour of the relay, sends a
    message or runs a flag update for that milestone id, as long as
    nobody else writes to the store: a refused notification is not
    retried. *)
Theorem processed_never_again
    (smtp : list event -> Email -> bool) (environ : gmap string string)
    (self : NotificationService) (now : Z) (w : World)
    (row : Milestone * Shipment) (ops : list op) :
  row ∈ poll_new_milestones now (db w) ->
  Forall is_job ops ->
  let w1 := (check_new_milestones smtp self now w).2 in
  exists new,
    log (exec smtp environ self ops w1) = log w1 ++ new
    /\ Forall (fun ev => ~ concerns_milestone (milestone_id row.1) ev) new.
Proof.
  intros Hrow Hjobs w1. apply exec_flagged; [exact Hjobs|].
  subst w1. destruct (check_new_milestones_run smtp self now w) as (turns & -> & _).
  cbn [snd db]. apply flagged_mark_all. right.
  unfold ids_of. apply list_elem_of_fmap. eauto.
Qed.

Lemma processed_never_again_witness :
  let w1 := (check_new_milestones Scenario.relay_down Scenario.service 10300
               (Scenario.world [Scenario.departed])).2 in
  exists new,
    log (exec Scenario.relay_down ∅ Scenario.service Scenario2.jobs w1) = log w1 ++ new
    /\ Forall (fun ev => ~ concerns_milestone 1 ev) new.
Proof.
  apply (processed_never_again Scenario.relay_down ∅ Scenario.service 10300
           (Scenario.world [Scenario.departed])
           (Scenario.departed, Scenario.booked) Scenario2.jobs).
  - vm_compute. left.
  - repeat constructor.
Defined.

(** ** At most one message per milestone *)

Lemma filter_key_unique ships k :
  NoDup (map shipment_id ships) ->
  (length (filter (fun s => k = shipment_id s) ships) <= 1)%nat.
Proof.
  induction ships as [|s rest IH]; [cbn; lia|].
  cbn [map]. rewrite NoDup_cons. intros [Hnin Hnd]. rewrite filter_cons.
  case_decide as Hk; [|by apply IH]. cbn [length].
  destruct (filter (fun s0 => k = shipment_id s0) rest) as [|s' l] eqn:Hf; [cbn; lia|].
  exfalso. apply Hnin.
  assert (Hs' : s' ∈ filter (fun s0 => k = shipment_id s0) rest) by (rewrite Hf; left).
  apply list_elem_of_filter in Hs' as [Hk' Hs']. rewrite <- Hk, Hk'.
  apply list_elem_of_fmap. eauto.
Qed.

Lemma join_cons {A} (sid : A -> Z) r rows ships :
  join_shipments sid (r :: rows) ships
  = map (fun s => (r, s)) (filter (fun s => sid r = shipment_id s) ships)
    ++ join_shipments sid rows ships.
Proof.
  unfold join_shipments. rewrite bind_cons. f_equal.
Qed.

Lemma join_ids ms ships i :
  i ∈ ids_of (join_shipments m_shipment_id ms ships) -> i ∈ map milestone_id ms.
Proof.
  unfold ids_of. intros Hin. apply list_elem_of_fmap in Hin as ([m s] & -> & Hrow).
  apply elem_of_join in Hrow as (Hm & _). apply list_elem_of_fmap. eauto.
Qed.

Lemma join_NoDup ms ships :
  NoDup (map milestone_id ms) -> NoDup (map shipment_id ships) ->
  NoDup (ids_of (join_shipments m_shipment_id ms ships)).
Proof.
  intros Hms Hships. induction ms as [|m ms IH]; [constructor|].
  cbn [map] in Hms. apply NoDup_cons in Hms as [Hnin Hms].
  rewrite join_cons. unfold ids_of. rewrite map_app, map_map. cbn [fst].
  apply NoDup_app. split; [|split].
  - pose proof (filter_key_unique ships (m_shipment_id m) Hships) as Hlen.
    destruct (filter (fun s => m_shipment_id m = shipment_id s) ships) as [|s [|s' l]];
      cbn in Hlen |- *; [constructor| |lia].
    apply NoDup_singleton.
  - intros i Hi Hi'. apply join_ids in Hi'.
    apply list_elem_of_fmap in Hi as (s & -> & _). contradiction.
  - by apply IH.
Qed.

Lemma poll_NoDup now d :
  NoDup (map milestone_id (milestones d)) -> NoDup (map shipment_id (shipments d)) ->
  NoDup (ids_of (poll_new_milestones now d)).
Proof.
  intros Hms Hships. unfold ids_of.
  rewrite (Permutation_map _ (poll_new_milestones_perm now d)).
  apply (sublist_NoDup _ (ids_of (join_shipments m_shipment_id (milestones d) (shipments d))));
    [exact (join_NoDup _ _ Hms Hships)|].
  apply (fmap_sublist (fun row : Milestone * Shipment => milestone_id row.1)).
  apply sublist_filter.
Qed.

Lemma NoDup_count (ids : list Z) i :
  NoDup ids -> (length (filter (fun j => j = i) ids) <= 1)%nat.
Proof.
  induction 1 as [|j ids Hnin _ IH]; [cbn; lia|].
  rewrite filter_cons. case_decide as Hj; [|exact IH]. subst j. cbn [length].
  destruct (filter (fun j => j = i) ids) as [|j' l] eqn:Hf; [cbn; lia|].
  exfalso. apply Hnin.
  assert (Hj' : j' ∈ filter (fun j => j = i) ids) by (rewrite Hf; left).
  apply list_elem_of_filter in Hj' as [-> ?]. done.
Qed.

Lemma attempts_about_app mid l1 l2 :
  attempts_about mid (l1 ++ l2) = (attempts_about mid l1 + attempts_about mid l2)%nat.
Proof. unfold attempts_about. rewrite filter_app, length_app. reflexivity. Qed.

(** One job, under unique keys. *)
Lemma exec_op_once smtp environ self mid o w :
  is_job o ->
  NoDup (map milestone_id (milestones (db w))) ->
  NoDup (map shipment_id (shipments (db w))) ->
  let w' := exec_op smtp environ self o w in
  NoDup (map milestone_id (milestones (db w')))
  /\ NoDup (map shipment_id (shipments (db w')))
  /\ exists new, log w' = log w ++ new
       /\ (attempts_about mid new <= 1)%nat
       /\ (attempts_about mid new = 1%nat -> flagged mid (db w')).
Proof.
  intros Hjob Hms Hships w'. subst w'. destruct o as [now|now|now|f]; [|..|destruct Hjob].
  - cbn [exec_op].
    destruct (check_new_milestones_run smtp self now w) as (turns & -> & Hturns).
    cbn [snd db log].
    destruct (mark_all_frame (poll_new_milestones now (db w)) (db w)) as (-> & _ & _).
    split; [|split; [exact Hships|]].
    + rewrite mark_all_map, map_map.
      rewrite (map_ext _ milestone_id) by (intros m; apply mark_if_polled_id). exact Hms.
    + exists (concat turns). split; [reflexivity|].
      destruct (turns_events self _ _ mid Hturns) as (Hatt & _ & _ & Hcount).
      rewrite Hcount. split.
      * apply NoDup_count, poll_NoDup; assumption.
      * intros Hone. apply flagged_mark_all. right.
        destruct (filter (fun i => i = mid) (ids_of (poll_new_milestones now (db w))))
          as [|i l] eqn:Hf; [discriminate|].
        assert (Hi : i ∈ filter (fun i => i = mid) (ids_of (poll_new_milestones now (db w))))
          by (rewrite Hf; left).
        apply list_elem_of_filter in Hi as [-> ?]. done.
  - destruct (exec_op_missed smtp environ self mid (CheckExceptions now) w I)
      as (_ & new & Hlog & Hnew).
    cbn [exec_op] in *. destruct (check_exceptions_run smtp environ self now w) as (-> & _).
    repeat (split; [assumption|]). exists new. split; [exact Hlog|].
    rewrite (unconcerned_no_attempt mid new Hnew). split; [lia|discriminate].
  - destruct (exec_op_missed smtp environ self mid (SendDailySummary now) w I)
      as (_ & new & Hlog & Hnew).
    cbn [exec_op] in *.
    destruct (send_daily_summary_run smtp self now w) as (e & delivered & Hrun & _).
    rewrite Hrun in *. cbn [snd db] in *.
    repeat (split; [assumption|]). exists new. split; [exact Hlog|].
    rewrite (unconcerned_no_attempt mid new Hnew). split; [lia|discriminate].
Qed.

Lemma exec_once smtp environ self mid ops w :
  Forall is_job ops ->
  NoDup (map milestone_id (milestones (db w))) ->
  NoDup (map shipment_id (shipments (db w))) ->
  exists new, log (exec smtp environ self ops w) = log w ++ new
    /\ (attempts_about mid new <= 1)%nat
    /\ (flagged mid (db w) -> attempts_about mid new = 0%nat).
Proof.
  intros Hjobs. revert w. induction Hjobs as [|o ops Hjob Hjobs IH]; intros w Hms Hships.
  - exists []. cbn. rewrite app_nil_r. repeat split; cbn; lia.
  - destruct (exec_op_once smtp environ self mid o w Hjob Hms Hships)
      as (Hms' & Hships' & new1 & Hlog1 & Hle1 & Hone1).
    destruct (IH _ Hms' Hships') as (new2 & Hlog2 & Hle2 & Hzero2).
    exists (new1 ++ new2). rewrite exec_cons, Hlog2, Hlog1, app_assoc.
    split; [reflexivity|]. rewrite attempts_about_app. split.
    + destruct (decide (attempts_about mid new1 = 1%nat)) as [H1|H1]; [|lia].
      rewrite (Hzero2 (Hone1 H1)). lia.
    + intros Hfl.
      destruct (exec_op_flagged smtp environ self mid o w Hjob Hfl) as (Hfl' & new1' & Hlog1' & Hnew1').
      rewrite Hlog1 in Hlog1'. apply app_inv_head in Hlog1'. subst new1'.
      rewrite (unconcerned_no_attempt mid new1 Hnew1'), (Hzero2 Hfl'). reflexivity.
Qed.

(** X5. When no two rows of the milestone table share an id and no two
    shipments share an id, then over any sequence of jobs of the worker,
    with nobody else writing to the store, [send_email] is called at most
    once for each milestone id, whatever the relay answers. *)
Theorem at_most_one_attempt
    (smtp : list event -> Email -> bool) (environ : gmap string string)
    (self : NotificationService) (ops : list op) (w : World) (mid : Z) :
  NoDup (map milestone_id (milestones (db w))) ->
  NoDup (map shipment_id (shipments (db w))) ->
  Forall is_job ops ->
  exists new,
    log (exec smtp environ self ops w) = log w ++ new
    /\ (attempts_about mid new <= 1)%nat.
Proof.
  intros Hms Hships Hjobs.
  destruct (exec_once smtp environ self mid ops w Hjobs Hms Hships) as (new & Hlog & Hle & _).
  eauto.
Qed.

Lemma at_most_one_attempt_witness :
  exists new,
    log (exec Scenario.relay_down ∅ Scenario.service Scenario2.jobs
           (Scenario.world [Scenario.departed; Scenario.missed; Scenario2.in_progress]))
      = log (Scenario.world [Scenario.departed; Scenario.missed; Scenario2.in_progress]) ++ new
    /\ (attempts_about 1 new <= 1)%nat.
Proof.
  apply (at_most_one_attempt Scenario.relay_down ∅ Scenario.service Scenario2.jobs
           (Scenario.world [Scenario.departed; Scenario.missed; Scenario2.in_progress]) 1).
  - vm_compute. repeat constructor; intros Hin; repeat (inversion Hin as [|? ? ? Hin']; subst; clear Hin; rename Hin' into Hin); inversion Hin.
  - vm_compute. repeat constructor. intros Hin. inversion Hin.
  - repeat constructor.
Defined.

(** ** The base recipients *)

(** X6. When [SMTP_PORT] is unset or a decimal numeral, so that
    [__init__] reaches its last statement, the base recipient list that
    it reads from [VHC_EMAILS] is never empty; its entries hold no comma
    and, joined with commas, give the configured text back. Blank entries
    are kept: an empty [VHC_EMAILS] gives one blank recipient, and an
    unset one gives the default address. *)
Theorem init_recipients (environ : gmap string string) :
  port_readable environ ->
  vhc_recipients (init environ) <> []
  /\ String.concat "," (vhc_recipients (init environ))
     = match environ !! "VHC_EMAILS" with
       | Some v => v
       | None => "vhc-team@example.com"
       end
  /\ Forall (lacks ",") (vhc_recipients (init environ))
  /\ (environ !! "VHC_EMAILS" = Some EmptyString ->
      vhc_recipients (init environ) = [EmptyString])
  /\ (environ !! "VHC_EMAILS" = None ->
      vhc_recipients (init environ) = ["vhc-team@example.com"]).
Proof.
  intros _. unfold init. cbn [vhc_recipients]. split; [apply split_not_nil|].
  split; [apply (split_join ","%char)|]. split; [apply split_lacks|].
  unfold Py.getenv. split; intros ->; reflexivity.
Qed.

Lemma init_recipients_witness :
  let environ : gmap string string :=
    {[ "SMTP_PORT" := "2525"; "VHC_EMAILS" := "a@example.org,,b@example.org" ]} in
  vhc_recipients (init environ) <> []
  /\ String.concat "," (vhc_recipients (init environ))
     = match environ !! "VHC_EMAILS" with
       | Some v => v
       | None => "vhc-team@example.com"
       end
  /\ Forall (lacks ",") (vhc_recipients (init environ))
  /\ (environ !! "VHC_EMAILS" = Some EmptyString ->
      vhc_recipients (init environ) = [EmptyString])
  /\ (environ !! "VHC_EMAILS" = None ->
      vhc_recipients (init environ) = ["vhc-team@example.com"]).
Proof.
  intros environ. apply (init_recipients environ).
  vm_compute. repeat split; try discriminate; repeat constructor.
Defined.

(** ** Formatted milestone names *)

Lemma to_lower_not_underscore c : c <> "_"%char -> Py.to_lower c <> "_"%char.
Proof.
  destruct c as [[] [] [] [] [] [] [] []]; vm_compute; congruence.
Qed.

Lemma to_upper_not_underscore c : c <> "_"%char -> Py.to_upper c <> "_"%char.
Proof.
  destruct c as [[] [] [] [] [] [] [] []]; vm_compute; congruence.
Qed.

Lemma title_char_again (prev : bool) c :
  let c' := if prev then Py.to_lower c else Py.to_upper c in
  Py.is_cased c' = Py.is_cased c
  /\ (if prev then Py.to_lower c' else Py.to_upper c') = c'.
Proof.
  destruct prev; destruct c as [[] [] [] [] [] [] [] []]; vm_compute; split; reflexivity.
Qed.

Lemma title_from_idempotent prev s :
  Py.title_from prev (Py.title_from prev s) = Py.title_from prev s.
Proof.
  revert prev. induction s as [|c rest IH]; intros prev; [reflexivity|].
  cbn [Py.title_from]. destruct (title_char_again prev c) as [Hcased Hchar].
  cbn zeta in Hcased, Hchar. rewrite Hcased, Hchar, IH. reflexivity.
Qed.

Lemma title_replace_lacks prev s :
  lacks "_" (Py.title_from prev (Py.replace "_" " " s)).
Proof.
  revert prev. induction s as [|c rest IH]; intros prev; [exact I|].
  cbn [Py.replace Py.title_from lacks]. split; [|apply IH].
  destruct (Ascii.eqb c "_") eqn:Hc.
  - destruct prev; vm_compute; congruence.
  - apply Ascii.eqb_neq in Hc.
    destruct prev; [by apply to_lower_not_underscore|by apply to_upper_not_underscore].
Qed.

Lemma replace_lacks s : lacks "_" s -> Py.replace "_" " " s = s.
Proof.
  induction s as [|c rest IH]; [reflexivity|]. cbn [lacks Py.replace].
  intros [Hc Hrest]. apply Ascii.eqb_neq in Hc. rewrite Hc, (IH Hrest). reflexivity.
Qed.

Lemma title_char_ascii (prev : bool) c :
  (nat_of_ascii c < 128)%nat ->
  (nat_of_ascii (if prev then Py.to_lower c else Py.to_upper c) < 128)%nat.
Proof.
  destruct prev; destruct c as [[] [] [] [] [] [] [] []]; vm_compute; intros H; lia.
Qed.

Lemma title_replace_ascii prev s :
  ascii_only s -> ascii_only (Py.title_from prev (Py.replace "_" " " s)).
Proof.
  revert prev. induction s as [|c rest IH]; intros prev; [done|].
  cbn [ascii_only Py.replace Py.title_from]. intros [Hc Hrest]. split; [|by apply IH].
  apply title_char_ascii. destruct (Ascii.eqb c "_"); [vm_compute; lia|exact Hc].
Qed.

(** X7. For an absent name and for every name of ASCII text,
    [format_milestone_name] returns an ASCII text that is not empty,
    holds no underscore and is in title case (each letter that starts a
    word is a capital, every other letter is small); formatting that
    text again gives it back. *)
Theorem format_milestone_name_stable (name : option string) :
  (forall s, name = Some s -> ascii_only s) ->
  format_milestone_name name <> EmptyString
  /\ lacks "_" (format_milestone_name name)
  /\ ascii_only (format_milestone_name name)
  /\ format_milestone_name (Some (format_milestone_name name)) = format_milestone_name name
  /\ forall (n : nat) (c : ascii),
       String.get n (format_milestone_name name) = Some c ->
       shown_char (format_milestone_name name) n c = c.
Proof.
  intros Hascii.
  assert (Hmain : format_milestone_name name <> EmptyString
    /\ lacks "_" (format_milestone_name name)
    /\ ascii_only (format_milestone_name name)
    /\ format_milestone_name (Some (format_milestone_name name)) = format_milestone_name name).
  { destruct name as [[|c rest]|].
    - split; [discriminate|]. split; [cbn; repeat split; discriminate|].
      split; [cbn [ascii_only format_milestone_name Py.truthy]; repeat split;
              apply Nat.ltb_lt; reflexivity|reflexivity].
    - assert (Hfmt : format_milestone_name (Some (String c rest))
                     = Py.title (Py.replace "_" " " (String c rest))) by reflexivity.
      rewrite Hfmt. split; [discriminate|]. split; [apply title_replace_lacks|].
      split; [apply title_replace_ascii, Hascii; reflexivity|].
      pose proof (title_replace_lacks false (String c rest)) as Hlacks.
      fold (Py.title (Py.replace "_" " " (String c rest))) in Hlacks.
      remember (Py.title (Py.replace "_" " " (String c rest))) as t eqn:Ht.
      assert (Hne : t <> EmptyString) by (subst t; discriminate).
      destruct t as [|a t']; [contradiction|].
      change (Py.title (Py.replace "_" " " (String a t')) = String a t').
      rewrite (replace_lacks _ Hlacks), Ht.
      apply title_from_idempotent.
    - split; [discriminate|]. split; [cbn; repeat split; discriminate|].
      split; [cbn [ascii_only format_milestone_name Py.truthy]; repeat split;
              apply Nat.ltb_lt; reflexivity|reflexivity]. }
  destruct Hmain as (Hne & Hlacks & Hasc & Hidem).
  repeat (split; [assumption|]).
  intros n c Hget.
  pose proof (format_get (format_milestone_name name) n c Hne Hget) as Hshown.
  rewrite Hidem, Hget in Hshown. congruence.
Qed.

Lemma format_milestone_name_stable_witness :
  format_milestone_name (Some "customs_RELEASE_2nd") <> EmptyString
  /\ lacks "_" (format_milestone_name (Some "customs_RELEASE_2nd"))
  /\ ascii_only (format_milestone_name (Some "customs_RELEASE_2nd"))
  /\ format_milestone_name (Some (format_milestone_name (Some "customs_RELEASE_2nd")))
     = format_milestone_name (Some "customs_RELEASE_2nd")
  /\ forall (n : nat) (c : ascii),
       String.get n (format_milestone_name (Some "customs_RELEASE_2nd")) = Some c ->
       shown_char (format_milestone_name (Some "customs_RELEASE_2nd")) n c = c.
Proof.
  apply (format_milestone_name_stable (Some "customs_RELEASE_2nd")).
  intros s [= <-]. cbn [ascii_only]. repeat split; apply Nat.ltb_lt; reflexivity.
Defined.

(** ** Uploaded files *)

Lemma extension_None s : Api.extension s = None <-> lacks "." s.
Proof.
  induction s as [|c rest IH]; [cbn; tauto|].
  cbn [Api.extension lacks]. destruct (Api.extension rest) as [ext|].
  - split; [discriminate|]. intros [_ Hrest]. apply IH in Hrest. discriminate.
  - destruct (Ascii.eqb c ".") eqn:Hc.
    + apply Ascii.eqb_eq in Hc. split; [discriminate|]. intros [Hne _]. contradiction.
    + apply Ascii.eqb_neq in Hc. split; [|reflexivity]. intros _. split; [exact Hc|by apply IH].
Qed.

Lemma extension_Some s ext :
  Api.extension s = Some ext <->
  exists stem, s = String.append stem (String "." ext) /\ lacks "." ext.
Proof.
  revert ext. induction s as [|c rest IH]; intros ext.
  - cbn. split; [discriminate|]. intros ([|a stem] & Heq & _); discriminate.
  - cbn [Api.extension]. split.
    + destruct (Api.extension rest) as [e|] eqn:Hrest.
      * intros [= <-]. destruct (proj1 (IH e) eq_refl) as (stem & -> & Hl).
        exists (String c stem). done.
      * destruct (Ascii.eqb c ".") eqn:Hc; [|discriminate].
        apply Ascii.eqb_eq in Hc. subst c.
        intros [= <-]. exists EmptyString. split; [reflexivity|by apply extension_None].
    + intros ([|a stem] & Heq & Hl); cbn in Heq; inversion Heq; subst; clear Heq.
      * apply extension_None in Hl. rewrite Hl. reflexivity.
      * rewrite (proj2 (IH ext)) by eauto. reflexivity.
Qed.

(** X8. [allowed_file] accepts a file name exactly when the name has a
    dot and the text after its last dot, lower-cased, is one of the
    allowed extensions. A name with no dot is refused, and only the last
    extension counts. *)
Theorem allowed_file_iff (filename : string) :
  (Api.allowed_file filename = true <->
   exists stem ext,
     filename = String.append stem (String "." ext)
     /\ lacks "." ext
     /\ Api.lower ext ∈ Api.ALLOWED_EXTENSIONS)
  /\ (lacks "." filename -> Api.allowed_file filename = false).
Proof.
  unfold Api.allowed_file. split.
  - destruct (Api.extension filename) as [ext|] eqn:Hext.
    + rewrite bool_decide_eq_true. apply extension_Some in Hext as (stem & -> & Hl). split.
      * intros Hin. eauto.
      * intros (stem' & ext' & Heq & Hl' & Hin).
        assert (Api.extension (String.append stem (String "." ext)) = Some ext) as H1
          by (apply extension_Some; eauto).
        assert (Api.extension (String.append stem (String "." ext)) = Some ext') as H2
          by (rewrite Heq; apply extension_Some; eauto).
        congruence.
    + split; [discriminate|]. intros (stem & ext & Heq & Hl & _).
      assert (Api.extension filename = Some ext) by (apply extension_Some; eauto).
      congruence.
  - intros Hl. apply extension_None in Hl. rewrite Hl. reflexivity.
Qed.

Lemma to_lower_dot c : Ascii.eqb (Py.to_lower c) "." = Ascii.eqb c ".".
Proof. destruct c as [[] [] [] [] [] [] [] []]; reflexivity. Qed.

Lemma to_lower_to_lower c : Py.to_lower (Py.to_lower c) = Py.to_lower c.
Proof. destruct c as [[] [] [] [] [] [] [] []]; reflexivity. Qed.

Lemma lower_lower s : Api.lower (Api.lower s) = Api.lower s.
Proof.
  induction s as [|c rest IH]; [reflexivity|].
  cbn. rewrite to_lower_to_lower, IH. reflexivity.
Qed.

Lemma extension_lower s :
  Api.extension (Api.lower s) = option_map Api.lower (Api.extension s).
Proof.
  induction s as [|c rest IH]; [reflexivity|].
  cbn [Api.lower Api.extension]. rewrite IH, to_lower_dot.
  destruct (Api.extension rest); [reflexivity|].
  destruct (Ascii.eqb c "."); reflexivity.
Qed.

Lemma allowed_file_lower s : Api.allowed_file (Api.lower s) = Api.allowed_file s.
Proof.
  unfold Api.allowed_file. rewrite extension_lower.
  destruct (Api.extension s) as [ext|]; [|reflexivity].
  cbn [option_map]. rewrite lower_lower. reflexivity.
Qed.

(** X9. [allowed_file] does not look at the case of letters: two file
    names that are equal once lower-cased get the same answer. *)
Theorem allowed_file_case_insensitive (f g : string) :
  Api.lower f = Api.lower g -> Api.allowed_file f = Api.allowed_file g.
Proof.
  intros Heq. rewrite <- (allowed_file_lower f), <- (allowed_file_lower g), Heq.
  reflexivity.
Qed.

Lemma allowed_file_case_insensitive_witness :
  Api.allowed_file "Invoice.final.PDF" = Api.allowed_file "invoice.FINAL.pdf".
Proof.
  apply (allowed_file_case_insensitive "Invoice.final.PDF" "invoice.FINAL.pdf").
  reflexivity.
Defined.

(** X10. The checks of [upload_document] let a request through to the
    saving of the file exactly when it has a file field with a non-empty
    name of an allowed type and a non-empty document type; every other
    request is answered 400 before anything is saved. *)
Theorem upload_document_outcome (shipment_id : Z) (files form : gmap string string) :
  (forall args,
      Api.upload_document shipment_id files form = Api.Proceed args <->
      exists filename document_type,
        files !! "file" = Some filename
        /\ form !! "document_type" = Some document_type
        /\ document_type <> EmptyString
        /\ filename <> EmptyString
        /\ Api.allowed_file filename = true
        /\ args = (shipment_id, document_type, filename))
  /\ ((forall args, Api.upload_document shipment_id files form <> Api.Proceed args) ->
      exists error, Api.upload_document shipment_id files form = Api.Respond 400 error).
Proof.
  unfold Api.upload_document.
  assert (Hresp : forall error : string,
    (forall args : Z * string * string,
        ~ exists filename document_type,
            files !! "file" = Some filename
            /\ form !! "document_type" = Some document_type
            /\ document_type <> EmptyString
            /\ filename <> EmptyString
            /\ Api.allowed_file filename = true
            /\ args = (shipment_id, document_type, filename)) ->
    (forall args,
        @Api.Respond (Z * string * string) 400 error = Api.Proceed args <->
        exists filename document_type,
          files !! "file" = Some filename
          /\ form !! "document_type" = Some document_type
          /\ document_type <> EmptyString
          /\ filename <> EmptyString
          /\ Api.allowed_file filename = true
          /\ args = (shipment_id, document_type, filename))
    /\ ((forall args, @Api.Respond (Z * string * string) 400 error <> Api.Proceed args) ->
        exists error', @Api.Respond (Z * string * string) 400 error = Api.Respond 400 error')).
  { intros error Hno. split; [|eauto].
    intros args. split; [discriminate|]. intros H. destruct (Hno args H). }
  destruct (files !! "file") as [filename|] eqn:Hfile;
    [|apply Hresp; intros args (f & d & ? & _); congruence].
  destruct (form !! "document_type") as [dt|] eqn:Hform;
    [|apply Hresp; intros args (f & d & _ & ? & _); congruence].
  destruct dt as [|a dt]; cbn [negb Py.truthy];
    [apply Hresp; intros args (f & d & _ & ? & ? & _); congruence|].
  destruct filename as [|b fn]; cbn [negb Py.truthy];
    [apply Hresp; intros args (f & d & ? & _ & _ & ? & _); congruence|].
  destruct (Api.allowed_file (String b fn)) eqn:Hal;
    [|apply Hresp; intros args (f & d & ? & _ & _ & _ & ? & _); congruence].
  clear Hresp. split.
  - intros args. split.
    + intros [= <-]. eexists _, _. repeat split; done.
    + intros (f & d & [= <-] & [= <-] & _ & _ & _ & ->). reflexivity.
  - intros Hno. exfalso. by eapply Hno.
Qed.

(** ** Checks of required fields and of roles *)

Lemma has_all_present data fields :
  Api.has_all data fields = true <-> Forall (fun k => is_Some (data !! k)) fields.
Proof.
  unfold Api.has_all. rewrite forallb_forall, Forall_forall.
  split; intros H k Hk.
  - apply list_elem_of_In in Hk. specialize (H k Hk). by apply bool_decide_eq_true in H.
  - apply bool_decide_eq_true, H, list_elem_of_In, Hk.
Qed.

(** X11. [register_user], [create_shipment] and [create_invoice] check
    only that the required keys are present: with all of them present the
    handler goes on with the body, whatever the values (a null or an
    empty value passes), and with one of them absent it answers 400. *)
Theorem required_keys_presence_only (data : gmap string Api.json) :
  let check (handler : gmap string Api.json -> Api.outcome (gmap string Api.json))
            (required_fields : list string) :=
    (Forall (fun k => is_Some (data !! k)) required_fields ->
     handler data = Api.Proceed data)
    /\ (~ Forall (fun k => is_Some (data !! k)) required_fields ->
        handler data = Api.Respond 400 "Missing required fields") in
  check Api.register_user ["email"; "password"; "full_name"; "role"]
  /\ check Api.create_shipment ["booking_number"]
  /\ check Api.create_invoice ["shipment_id"; "invoice_number"; "total_amount"].
Proof.
  cbn zeta. unfold Api.register_user, Api.create_shipment, Api.create_invoice.
  repeat split; intros H.
  all: try (apply has_all_present in H; rewrite H; reflexivity).
  all: rewrite <- has_all_present in H; apply not_true_is_false in H; rewrite H; reflexivity.
Qed.

(** X12. A user without a role, or with a role other than SEAIR_ORIGIN,
    SEAIR_US and ADMIN, gets 403 from every role-checked mutating route
    whatever the body: the handler is not run (so [create_exception] does
    not raise for such a user). Registering users is refused to every
    role but ADMIN. *)
Theorem mutating_routes_forbidden
    (role : option string) (shipment_id : Z) (data : gmap string Api.json) :
  (forall r, role = Some r -> r <> "SEAIR_ORIGIN" /\ r <> "SEAIR_US" /\ r <> "ADMIN") ->
  Api.register_user_route role data = Api.Respond 403 "Unauthorized access"
  /\ Api.create_shipment_route role data = Api.Respond 403 "Unauthorized access"
  /\ Api.update_milestone_route role shipment_id data = Api.Respond 403 "Unauthorized access"
  /\ Api.create_invoice_route role data = Api.Respond 403 "Unauthorized access"
  /\ Api.create_exception_route role shipment_id data = Api.Respond 403 "Unauthorized access"
  /\ forall r, r <> "ADMIN" ->
       Api.register_user_route (Some r) data = Api.Respond 403 "Unauthorized access".
Proof.
  intros Hrole.
  assert (Hdeny : forall A (allowed : list string) (fn : Api.outcome A),
             Forall (fun a => a = "SEAIR_ORIGIN" \/ a = "SEAIR_US" \/ a = "ADMIN") allowed ->
             Api.role_required allowed role fn = Api.Respond 403 "Unauthorized access").
  { intros A allowed fn Hsub. unfold Api.role_required. destruct role as [r|]; [|reflexivity].
    rewrite bool_decide_eq_false_2; [reflexivity|]. intros Hin.
    rewrite Forall_forall in Hsub. specialize (Hsub r Hin).
    destruct (Hrole r eq_refl) as (H1 & H2 & H3). tauto. }
  unfold Api.register_user_route, Api.create_shipment_route, Api.update_milestone_route,
    Api.create_invoice_route, Api.create_exception_route.
  repeat (split; [apply Hdeny; repeat constructor; tauto|]).
  intros r Hr. unfold Api.role_required. rewrite bool_decide_eq_false_2; [reflexivity|].
  intros Hin. apply list_elem_of_singleton in Hin. contradiction.
Qed.

Lemma mutating_routes_forbidden_witness :
  Api.register_user_route (Some "VHC") ∅ = Api.Respond 403 "Unauthorized access"
  /\ Api.create_shipment_route (Some "VHC") ∅ = Api.Respond 403 "Unauthorized access"
  /\ Api.update_milestone_route (Some "VHC") 1 ∅ = Api.Respond 403 "Unauthorized access"
  /\ Api.create_invoice_route (Some "VHC") ∅ = Api.Respond 403 "Unauthorized access"
  /\ Api.create_exception_route (Some "VHC") 1 ∅ = Api.Respond 403 "Unauthorized access"
  /\ forall r, r <> "ADMIN" ->
       Api.register_user_route (Some r) ∅ = Api.Respond 403 "Unauthorized access".
Proof.
  apply (mutating_routes_forbidden (Some "VHC") 1 ∅).
  intros r [= <-]. repeat split; discriminate.
Defined.

(** ** The filters of the shipment list *)

Lemma add_filter_lengths value clause param acc :
  length acc.1 = length acc.2 ->
  length (Api.add_filter value clause param acc).1
  = length (Api.add_filter value clause param acc).2.
Proof.
  intros Hacc. unfold Api.add_filter. destruct value as [v|]; [|exact Hacc].
  destruct (Py.truthy v); [|exact Hacc]. cbn. rewrite !length_app, Hacc. reflexivity.
Qed.

Lemma add_filter_clauses value value' clause param acc acc' :
  Py.truthy_opt value = Py.truthy_opt value' ->
  acc.1 = acc'.1 ->
  (Api.add_filter value clause param acc).1 = (Api.add_filter value' clause param acc').1.
Proof.
  intros Hv Hacc. unfold Api.add_filter.
  destruct value as [v|], value' as [v'|]; cbn in Hv.
  - rewrite Hv. destruct (Py.truthy v'); cbn; congruence.
  - rewrite Hv. exact Hacc.
  - rewrite <- Hv. exact Hacc.
  - exact Hacc.
Qed.

Lemma add_filter_blank value clause param acc :
  Py.truthy_opt value = false -> Api.add_filter value clause param acc = acc.
Proof.
  unfold Api.add_filter. destruct value as [v|]; [|reflexivity]. cbn. intros ->. reflexivity.
Qed.

(** X13. [get_shipments] builds one parameter per filter, and the text
    of its [WHERE] clause depends only on which of the three arguments
    are given non-empty, not on their values: the values go into the
    parameters only. With no argument, or only empty ones, there is no
    [WHERE] clause and no parameter. *)
Theorem shipment_filters_parametrised (args args' : gmap string string) :
  length (Api.shipment_filters args).1 = length (Api.shipment_filters args).2
  /\ ((forall k, k ∈ ["booking_number"; "status"; "container_number"] ->
         Py.truthy_opt (args !! k) = Py.truthy_opt (args' !! k)) ->
      Api.where_clause (Api.shipment_filters args).1
      = Api.where_clause (Api.shipment_filters args').1)
  /\ ((forall k, k ∈ ["booking_number"; "status"; "container_number"] ->
         Py.truthy_opt (args !! k) = false) ->
      Api.where_clause (Api.shipment_filters args).1 = EmptyString
      /\ (Api.shipment_filters args).2 = []).
Proof.
  unfold Api.shipment_filters. split; [|split].
  - repeat apply add_filter_lengths. reflexivity.
  - intros Hsame. f_equal.
    repeat (apply add_filter_clauses; [apply Hsame; repeat constructor|]). reflexivity.
  - intros Hblank. rewrite !add_filter_blank by (apply Hblank; repeat constructor). done.
Qed.

(** ** The dashboard *)

Lemma count_status_pos st ships :
  0 < Api.count_status st ships <-> st ∈ map current_status ships.
Proof.
  unfold Api.count_status. rewrite list_elem_of_fmap. split.
  - intros Hpos.
    destruct (filter (fun s => current_status s = st) ships) as [|s l] eqn:Hf; [cbn in Hpos; lia|].
    assert (Hs : s ∈ filter (fun s => current_status s = st) ships) by (rewrite Hf; left).
    apply list_elem_of_filter in Hs as [<- Hs]. eauto.
  - intros (s & -> & Hs).
    assert (Hin : s ∈ filter (fun s0 => current_status s0 = current_status s) ships)
      by (apply list_elem_of_filter; done).
    destruct (filter (fun s0 => current_status s0 = current_status s) ships);
      [by apply elem_of_nil in Hin|cbn; lia].
Qed.

Lemma status_rows_keys ships :
  (Api.status_rows ships).*1 = remove_dups (map current_status ships).
Proof.
  unfold Api.status_rows.
  induction (remove_dups (map current_status ships)) as [|st l IH]; [reflexivity|].
  cbn. f_equal. exact IH.
Qed.

Lemma by_status_lookup st ships :
  (list_to_map (Api.status_rows ships) : gmap string Z) !! st
  = if decide (0 < Api.count_status st ships)
    then Some (Api.count_status st ships) else None.
Proof.
  case_decide as Hpos.
  - apply elem_of_list_to_map.
    + rewrite status_rows_keys. apply NoDup_remove_dups.
    + unfold Api.status_rows. apply list_elem_of_fmap. exists st. split; [reflexivity|].
      apply elem_of_remove_dups, count_status_pos, Hpos.
  - apply not_elem_of_list_to_map. rewrite status_rows_keys, elem_of_remove_dups.
    by rewrite <- count_status_pos.
Qed.

(** X14. In the statistics of [get_dashboard_stats], [by_status] maps
    each status that occurs to the number of its shipments and has no
    entry for a status that does not occur; the number of active
    shipments and the entry of COMPLETED (zero when absent) add up to
    the number of shipments; and the active count and the count of
    pending exceptions are the numbers that the worker's daily summary
    reports for the same store. *)
Theorem dashboard_stats_consistent (now : Z) (d : DB) :
  let stats := Api.get_dashboard_stats now d in
  (forall st,
      Api.by_status stats !! st
      = if decide (st ∈ map current_status (shipments d))
        then Some (Z.of_nat (length (filter (fun s => current_status s = st) (shipments d))))
        else None)
  /\ Api.active_shipments stats + default 0 (Api.by_status stats !! "COMPLETED")
     = Z.of_nat (length (shipments d))
  /\ Api.active_shipments stats = count_active d
  /\ Api.pending_exceptions stats = count_open_exceptions d.
Proof.
  cbn zeta. cbn [Api.get_dashboard_stats Api.by_status Api.active_shipments Api.pending_exceptions].
  split; [|split; [|split; reflexivity]].
  - intros st. rewrite by_status_lookup.
    destruct (decide (0 < Api.count_status st (shipments d))) as [Hpos|Hnpos];
      case_decide as Hin; try reflexivity.
    + by apply count_status_pos in Hpos.
    + by apply count_status_pos in Hin.
  - rewrite by_status_lookup.
    pose proof (filter_app_complement (fun s => current_status s = "COMPLETED") (shipments d))
      as Hperm.
    apply Permutation_length in Hperm. rewrite length_app in Hperm.
    assert (Hcount : default 0 (if decide (0 < Api.count_status "COMPLETED" (shipments d))
                                then Some (Api.count_status "COMPLETED" (shipments d)) else None)
                     = Api.count_status "COMPLETED" (shipments d)).
    { case_decide as Hpos; [reflexivity|]. cbn. unfold Api.count_status in *. lia. }
    rewrite Hcount. unfold Api.count_status. lia.
Qed.

(** ** Who gets the worker's messages *)

Lemma attempts_concat_turns self rows turns :
  Forall2 (fun row turn => exists delivered, turn = turn_of self row delivered) rows turns ->
  attempts (concat turns) = map (milestone_email self) rows.
Proof.
  induction 1 as [|row turn rows turns [delivered ->] _ IH]; [reflexivity|].
  cbn [concat map]. rewrite attempts_app. unfold turn_of.
  rewrite attempts_cons_email, attempts_cons_mark, IH. reflexivity.
Qed.

Lemma alert_recipients_prefix environ self sev :
  vhc_recipients self `prefix_of` alert_recipients environ self sev.
Proof.
  unfold alert_recipients. case_bool_decide; [by eexists|reflexivity].
Qed.

(** The messages of one operation. *)
Lemma exec_op_recipients smtp environ self o w :
  exists new,
    log (exec_op smtp environ self o w) = log w ++ new
    /\ Forall (fun e => vhc_recipients self `prefix_of` recipients e) (attempts new).
Proof.
  destruct o as [now|now|now|f]; cbn [exec_op].
  - destruct (check_new_milestones_run smtp self now w) as (turns & -> & Hturns).
    exists (concat turns). split; [reflexivity|].
    rewrite (attempts_concat_turns _ _ _ Hturns). apply Forall_fmap, Forall_forall.
    intros row _. unfold compose. cbn [recipients milestone_email]. reflexivity.
  - destruct (check_exceptions_run smtp environ self now w) as (_ & new & Hlog & Hatt & _).
    exists new. split; [exact Hlog|]. rewrite Hatt. apply Forall_fmap, Forall_forall.
    intros row _. unfold compose. cbn [recipients alert_email]. apply alert_recipients_prefix.
  - destruct (send_daily_summary_run smtp self now w) as (e & delivered & -> & Hto & _).
    eexists. split; [reflexivity|]. rewrite attempts_cons_email. repeat constructor.
    rewrite Hto. reflexivity.
  - exists []. cbn [log]. rewrite app_nil_r. split; [reflexivity|constructor].
Qed.

(** X15. Over any life of the service, every message that the worker
    hands to [send_email] has the base recipients first (escalation
    contacts only follow them); with the recipients that [__init__]
    reads from the environment, no message has an empty recipient
    list. *)
Theorem every_message_reaches_base_list
    (smtp : list event -> Email -> bool) (environ : gmap string string)
    (self : NotificationService) (ops : list op) (w : World) :
  exists new,
    log (exec smtp environ self ops w) = log w ++ new
    /\ Forall (fun e => vhc_recipients self `prefix_of` recipients e) (attempts new)
    /\ (self = init environ -> Forall (fun e => recipients e <> []) (attempts new)).
Proof.
  assert (Hmain : exists new,
             log (exec smtp environ self ops w) = log w ++ new
             /\ Forall (fun e => vhc_recipients self `prefix_of` recipients e) (attempts new)).
  { revert w. induction ops as [|o ops IH]; intros w.
    - exists []. cbn. rewrite app_nil_r. split; [reflexivity|constructor].
    - destruct (exec_op_recipients smtp environ self o w) as (new1 & Hlog1 & Hnew1).
      destruct (IH (exec_op smtp environ self o w)) as (new2 & Hlog2 & Hnew2).
      exists (new1 ++ new2). rewrite exec_cons, Hlog2, Hlog1, app_assoc.
      split; [reflexivity|]. rewrite attempts_app. apply Forall_app. done. }
  destruct Hmain as (new & Hlog & Hprefix). exists new.
  split; [exact Hlog|]. split; [exact Hprefix|].
  intros ->. eapply Forall_impl; [exact Hprefix|].
  intros e [extra He] Hnil. rewrite Hnil in He.
  symmetry in He. apply app_eq_nil in He as [He _].
  by apply (split_not_nil ","%char (Py.getenv environ "VHC_EMAILS" "vhc-team@example.com")).
Qed.

(** ** The table of the daily summary *)

(** X16. The table of the daily summary lists at most ten shipments,
    each of them a shipment of the store whose status is not COMPLETED;
    it lists all of those when they are ten or fewer; and no such
    shipment that the table leaves out was updated later than one that
    it lists. *)
Theorem recent_shipments_top_ten (d : DB) :
  (length (recent_shipments d) <= 10)%nat
  /\ (forall s, s ∈ recent_shipments d ->
        s ∈ shipments d /\ current_status s <> "COMPLETED")
  /\ ((length (filter (fun s => current_status s <> "COMPLETED") (shipments d)) <= 10)%nat ->
      recent_shipments d ≡ₚ filter (fun s => current_status s <> "COMPLETED") (shipments d))
  /\ (forall s s',
        s ∈ recent_shipments d ->
        s' ∈ shipments d -> current_status s' <> "COMPLETED" ->
        ¬ s' ∈ recent_shipments d ->
        updated_at s' <= updated_at s).
Proof.
  pose proof (recent_shipments_top d) as Htop.
  pose proof (merge_sort_Permutation latest_update_first (filter active (shipments d))) as Hperm.
  pose proof (StronglySorted_merge_sort latest_update_first (filter active (shipments d)))
    as Hsorted.
  split; [|split; [|split]].
  - unfold recent_shipments. rewrite length_take. lia.
  - intros s Hs.
    assert (Hin : s ∈ filter active (shipments d)).
    { rewrite <- Hperm, <- Htop. apply elem_of_app. by left. }
    apply list_elem_of_filter in Hin as [? ?]. done.
  - intros Hlen. unfold recent_shipments. rewrite take_ge; [exact Hperm|].
    rewrite (Permutation_length Hperm). exact Hlen.
  - intros s s' Hs Hs' Hact Hout.
    assert (Hin : s' ∈ recent_shipments d
                       ++ drop 10 (merge_sort latest_update_first (filter active (shipments d)))).
    { rewrite Htop, Hperm. apply list_elem_of_filter. done. }
    apply elem_of_app in Hin as [Hin|Hin]; [contradiction|].
    rewrite <- Htop in Hsorted. apply StronglySorted_app in Hsorted as (Hcross & _ & _).
    exact (Hcross s s' Hs Hin).
Qed.
